(** * aws-serverless-etl: the ingestion Lambda and the raw-to-processed Glue job

    A shallow embedding of [src/lambda/api_ingestion/handler.py] and
    [src/glue/jobs/raw_to_processed.py], and the properties of the two
    pipelines stated over it.

    Python dictionaries with free keys are [gmap string _]; dictionaries of
    a fixed shape (a result entry, a response body) are records.  Code that
    raises returns a sum whose left side is the exception; code that also
    writes to the outside world threads a [world] through. *)

From Stdlib Require Import ZArith Lia.
From stdpp Require Import base option list gmap strings pretty.

Open Scope string_scope.
Open Scope list_scope.
Set Warnings "-register-all,-clear-no-such-hyp".

(** ** Python values shared by the two programs *)

Module Py.

(** [datetime.datetime], as returned by [datetime.utcnow()]. *)
Record datetime := {
  year : nat; month : nat; day : nat;
  hour : nat; minute : nat; second : nat; microsecond : nat
}.

(** [str(n)] for a non-negative integer. *)
Definition str_int (n : nat) : string := pretty n.

Fixpoint zeros (k : nat) : string :=
  match k with
  | O => ""
  | S k' => "0" +:+ zeros k'
  end.

(** The format spec [0wd]: decimal digits, padded with zeros on the left up
    to width [w]; longer numbers are not cut. *)
Definition zfill (w n : nat) : string :=
  let s := str_int n in zeros (w - String.length s) +:+ s.

(** [timestamp.isoformat()]: the fraction is printed only when the
    microsecond field is not zero. *)
Definition isoformat (t : datetime) : string :=
  zfill 4 (year t) +:+ "-" +:+ zfill 2 (month t) +:+ "-" +:+ zfill 2 (day t)
  +:+ "T" +:+ zfill 2 (hour t) +:+ ":" +:+ zfill 2 (minute t)
  +:+ ":" +:+ zfill 2 (second t)
  +:+ (if decide (microsecond t = 0) then "" else "." +:+ zfill 6 (microsecond t)).

(** [timestamp.strftime('%Y%m%d_%H%M%S')], for the four-digit years that
    [utcnow()] returns. *)
Definition strftime_compact (t : datetime) : string :=
  zfill 4 (year t) +:+ zfill 2 (month t) +:+ zfill 2 (day t) +:+ "_"
  +:+ zfill 2 (hour t) +:+ zfill 2 (minute t) +:+ zfill 2 (second t).

(** Python truthiness of a string-or-None: [None] and [''] are false. *)
Definition truthy (v : option string) : bool :=
  match v with
  | Some s => negb (String.eqb s "")
  | None => false
  end.

(** Computations that may raise an [E] and that act on a world [W].  What
    was done before an exception stays done. *)
Definition M (W E A : Type) : Type := W → W * (E + A).

Definition ret {W E A} (a : A) : M W E A := λ w, (w, inr a).
Definition raise {W E A} (e : E) : M W E A := λ w, (w, inl e).
Definition bind {W E A B} (m : M W E A) (k : A → M W E B) : M W E B :=
  λ w, match m w with
       | (w', inr a) => k a w'
       | (w', inl e) => (w', inl e)
       end.

(** [try: m  except Exception as e: h e]. *)
Definition try_except {W E A} (m : M W E A) (h : E → M W E A) : M W E A :=
  λ w, match m w with
       | (w', inr a) => (w', inr a)
       | (w', inl e) => h e w'
       end.

End Py.

Notation "'let*' x ':=' m 'in' k" := (Py.bind m (λ x, k))
  (at level 10, x pattern, m at level 100, k at level 200).

(** ** [handler.py]: fetch from the configured sources and land in S3 *)

Module Ingestion.
Import Py.

(** The exceptions that travel through the module. *)
Inductive exn :=
| KeyError (key : string)
| ClientError (msg : string)
| RequestException (msg : string)
| ValueError (msg : string).

(** [str(e)]: a [KeyError] prints the repr of its key. *)
Definition str_exn (e : exn) : string :=
  match e with
  | KeyError k => "'" +:+ k +:+ "'"
  | ClientError m => m
  | RequestException m => m
  | ValueError m => m
  end.

(** A parsed JSON payload ([response.json()]). *)
Inductive json :=
| JNull
| JBool (b : bool)
| JNum (n : Z)
| JStr (s : string)
| JArr (items : list json)
| JObj (fields : list (string * json)).

(** One entry of the secret's ['sources'] list.  The code reads four keys of
    it; each may be absent from the dictionary. *)
Record source_config := {
  name : option string;
  url : option string;
  api_key : option string;
  params : option (gmap string string)
}.

(** The secret, after [json.loads]: [config.get('sources', [])] reads one key. *)
Record api_config := { sources : option (list source_config) }.

Record http_request := {
  req_url : string;
  req_headers : gmap string string;
  req_params : option (gmap string string);
  req_timeout : nat
}.

Record object_metadata := {
  md_source : string;
  md_ingestion_time : string;
  md_record_count : nat
}.

(** What [put_object] receives: the envelope that [json.dumps] serialises,
    the content type and the S3 user metadata. *)
Record s3_object := {
  Body_data : json;
  Body_metadata : object_metadata;
  ContentType : string;
  Metadata : gmap string string
}.

(** The outside world: the objects of S3 by (bucket, key), and the HTTP
    requests sent so far, oldest first. *)
Record world := {
  s3 : gmap (string * string) s3_object;
  http_log : list http_request
}.

Abbreviation M := (Py.M world exn).

(** [d[key]] on a key that may be absent. *)
Definition getitem {A} (key : string) (v : option A) : M A :=
  match v with
  | Some a => ret a
  | None => raise (KeyError key)
  end.

(** The per-source dictionaries of the response. *)
Record result := {
  r_source : string;
  r_status : string;
  r_record_count : nat;
  r_s3_key : string
}.

Record error_entry := {
  e_source : string;
  e_status : string;
  e_message : string
}.

Inductive body :=
| ReportBody (timestamp : string) (total_sources successful failed : nat)
             (results : list result) (errors : list error_entry)
| FatalBody (error : string) (timestamp : string).

Record response := { statusCode : Z; resp_body : body }.

(** [len(data) if isinstance(data, list) else 1]. *)
Definition record_count (data : json) : nat :=
  match data with
  | JArr items => length items
  | _ => 1
  end.

Section Handler.

(** The collaborators: the process environment, Secrets Manager (with the
    parse of the secret), the HTTP endpoints (with [raise_for_status] and the
    parse of the body) and S3's answer to a put ([None]: accepted). *)
Variable environ : gmap string string.
Variable secrets_get_config : string → exn + api_config.
Variable requests_get : http_request → exn + json.
Variable s3_put_object : string → string → s3_object → option exn.

Definition RAW_BUCKET : string := default "data-lake-raw" (environ !! "RAW_BUCKET").
Definition API_CONFIG_SECRET : string :=
  default "api-ingestion-config" (environ !! "API_CONFIG_SECRET").

Definition get_api_config : M api_config :=
  λ w, (w, secrets_get_config API_CONFIG_SECRET).

Definition fetch_api_data (u : string) (headers : gmap string string)
    (ps : option (gmap string string)) : M json :=
  λ w, let rq := {| req_url := u; req_headers := headers;
                    req_params := ps; req_timeout := 30 |} in
       ({| s3 := s3 w; http_log := http_log w ++ [rq] |}, requests_get rq).

Definition partition_path (source_name : string) (timestamp : datetime) : string :=
  source_name +:+ "/"
  +:+ "year=" +:+ str_int (year timestamp) +:+ "/"
  +:+ "month=" +:+ zfill 2 (month timestamp) +:+ "/"
  +:+ "day=" +:+ zfill 2 (day timestamp) +:+ "/"
  +:+ "hour=" +:+ zfill 2 (hour timestamp) +:+ "/".

Definition filename (source_name : string) (timestamp : datetime) : string :=
  source_name +:+ "_" +:+ strftime_compact timestamp +:+ ".json".

Definition object_key (source_name : string) (timestamp : datetime) : string :=
  partition_path source_name timestamp +:+ filename source_name timestamp.

Definition data_with_metadata (data : json) (source_name : string)
    (timestamp : datetime) : s3_object :=
  {| Body_data := data;
     Body_metadata := {| md_source := source_name;
                         md_ingestion_time := isoformat timestamp;
                         md_record_count := record_count data |};
     ContentType := "application/json";
     Metadata := <["ingestion_time" := isoformat timestamp]>
                   {["source" := source_name]} |}.

Definition upload_to_s3 (data : json) (source_name : string)
    (timestamp : datetime) : M string :=
  λ w, let key := object_key source_name timestamp in
       let obj := data_with_metadata data source_name timestamp in
       match s3_put_object RAW_BUCKET key obj with
       | None => ({| s3 := <[(RAW_BUCKET, key) := obj]> (s3 w);
                     http_log := http_log w |}, inr key)
       | Some e => (w, inl e)
       end.

Definition build_headers (source_config : source_config) : gmap string string :=
  let headers := {["Content-Type" := "application/json"]} in
  if truthy (api_key source_config)
  then <["Authorization" := "Bearer " +:+ default "" (api_key source_config)]> headers
  else headers.

Definition process_source (source_config : source_config)
    (timestamp : datetime) : M result :=
  let* source_name := getitem "name" (name source_config) in
  let headers := build_headers source_config in
  let* u := getitem "url" (url source_config) in
  let* data := fetch_api_data u headers (params source_config) in
  let* key := upload_to_s3 data source_name timestamp in
  ret {| r_source := source_name;
         r_status := "success";
         r_record_count := record_count data;
         r_s3_key := key |}.

(** [[s for s in sources if s['name'] == wanted]]: the subscript is evaluated
    for every element, in order, and raises on the first one without a name. *)
Fixpoint filter_by_name (wanted : string) (srcs : list source_config)
    : M (list source_config) :=
  match srcs with
  | [] => ret []
  | s :: rest =>
      let* n := getitem "name" (name s) in
      let* kept := filter_by_name wanted rest in
      ret (if String.eqb n wanted then s :: kept else kept)
  end.

(** The source list of a run: the configured one, cut down to the requested
    name when the event carries a non-empty ['source_name']. *)
Definition select_sources (event : gmap string string)
    (config : api_config) : M (list source_config) :=
  let srcs := default [] (sources config) in
  if truthy (event !! "source_name")
  then filter_by_name (default "" (event !! "source_name")) srcs
  else ret srcs.

(** The body of the [for] loop: the inner [try] around [process_source]; the
    [except] branch builds the error entry, reading ['name'] again. *)
Fixpoint process_all (srcs : list source_config) (timestamp : datetime)
    (results : list result) (errors : list error_entry)
    : M (list result * list error_entry) :=
  match srcs with
  | [] => ret (results, errors)
  | source_config :: rest =>
      let* step :=
        try_except
          (let* r := process_source source_config timestamp in
           ret (results ++ [r], errors))
          (λ e,
            let* n := getitem "name" (name source_config) in
            ret (results,
                 errors ++ [{| e_source := n; e_status := "error";
                               e_message := str_exn e |}])) in
      process_all rest timestamp step.1 step.2
  end.

Definition build_response (timestamp : datetime) (srcs : list source_config)
    (results : list result) (errors : list error_entry) : response :=
  {| statusCode := if bool_decide (errors = []) then 200 else 207;
     resp_body := ReportBody (isoformat timestamp) (length srcs)
                    (length results) (length errors) results errors |}.

Definition fatal_response (timestamp : datetime) (e : exn) : response :=
  {| statusCode := 500;
     resp_body := FatalBody (str_exn e) (isoformat timestamp) |}.

(** [handler(event, context)], given the reading of the clock it starts with. *)
Definition handler (event : gmap string string) (timestamp : datetime)
    : M response :=
  try_except
    (let* config := get_api_config in
     let* srcs := select_sources event config in
     let* out := process_all srcs timestamp [] [] in
     ret (build_response timestamp srcs out.1 out.2))
    (λ e, ret (fatal_response timestamp e)).

(** *** What a run leaves behind *)

(** The request [process_source] sends for a source, when it has a URL. *)
Definition request_of (sc : source_config) : option http_request :=
  u ← url sc;
  Some {| req_url := u; req_headers := build_headers sc;
          req_params := params sc; req_timeout := 30 |}.

(** The source goes through: it has a name and a URL, the endpoint answers
    with [data], S3 accepts the object; [r] is the entry it is reported with. *)
Definition succeeds (timestamp : datetime) (sc : source_config)
    (r : result) : Prop :=
  ∃ n rq data,
    name sc = Some n ∧ request_of sc = Some rq ∧
    requests_get rq = inr data ∧
    s3_put_object RAW_BUCKET (object_key n timestamp)
      (data_with_metadata data n timestamp) = None ∧
    r = {| r_source := n; r_status := "success";
           r_record_count := record_count data;
           r_s3_key := object_key n timestamp |}.

(** The fetch of the source raises [e]: the request is sent (so the source has
    a name and a URL) and the endpoint fails. *)
Definition fetch_fails (sc : source_config) (n : string) (e : exn) : Prop :=
  ∃ rq, name sc = Some n ∧ request_of sc = Some rq ∧ requests_get rq = inl e.

Definition error_of (n : string) (e : exn) : error_entry :=
  {| e_source := n; e_status := "error"; e_message := str_exn e |}.

Ltac run := unfold bind, try_except, ret, raise, getitem in *; simpl in *.

Lemma process_source_succeeds timestamp sc r w :
  succeeds timestamp sc r →
  ∃ w' rq, process_source sc timestamp w = (w', inr r) ∧
           request_of sc = Some rq ∧
           http_log w' = http_log w ++ [rq] ∧
           is_Some (s3 w' !! (RAW_BUCKET, r_s3_key r)) ∧
           dom (s3 w) ⊆ dom (s3 w').
Proof.
  intros (n & rq & data & Hn & Hrq & Hget & Hput & ->).
  unfold request_of in Hrq. destruct (url sc) as [u|] eqn:Hu; simplify_eq/=.
  eexists _, _. unfold process_source, fetch_api_data, upload_to_s3.
  rewrite Hn, Hu. run. rewrite Hget, Hput. simpl.
  split; [reflexivity|]. unfold request_of. rewrite Hu. simpl.
  repeat split.
  - rewrite lookup_insert_eq. eauto.
  - set_solver.
Qed.

Lemma process_source_fetch_fails timestamp sc n e w :
  fetch_fails sc n e →
  ∃ rq, request_of sc = Some rq ∧
        process_source sc timestamp w =
          ({| s3 := s3 w; http_log := http_log w ++ [rq] |}, inl e).
Proof.
  intros (rq & Hn & Hrq & Hget).
  unfold request_of in Hrq. destruct (url sc) as [u|] eqn:Hu; simplify_eq/=.
  unfold request_of. rewrite Hu. eexists. split; [reflexivity|].
  unfold process_source, fetch_api_data.
  rewrite Hn, Hu. run. by rewrite Hget.
Qed.

(** A source without a name makes [process_source] raise before it does
    anything. *)
Lemma process_source_nameless timestamp sc w :
  name sc = None →
  process_source sc timestamp w = (w, inl (KeyError "name")).
Proof. intros Hn. unfold process_source. rewrite Hn. by run. Qed.

(** The world only grows with [process_source]: at most one request more, and
    the objects landed before stay in place. *)
Lemma process_source_log timestamp sc w :
  (length (http_log (process_source sc timestamp w).1) ≤ S (length (http_log w)))%nat.
Proof.
  unfold process_source, fetch_api_data, upload_to_s3. run.
  destruct (name sc); simpl; [|lia]. destruct (url sc); simpl; [|lia].
  destruct (requests_get _); simpl; [rewrite length_app; simpl; lia|].
  destruct (s3_put_object _ _ _); simpl; rewrite length_app; simpl; lia.
Qed.

Lemma process_source_reports_name timestamp sc w w' r :
  process_source sc timestamp w = (w', inr r) → name sc = Some (r_source r).
Proof.
  unfold process_source, fetch_api_data, upload_to_s3. run.
  destruct (name sc); [|done]. simpl. destruct (url sc); [|done]. simpl.
  destruct (requests_get _); [done|]. simpl.
  destruct (s3_put_object _ _ _); [done|]. by intros [= _ <-].
Qed.

(** *** The loop *)

Lemma process_all_cons timestamp sc rest rs es w :
  process_all (sc :: rest) timestamp rs es w =
    match process_source sc timestamp w with
    | (w1, inr r) => process_all rest timestamp (rs ++ [r]) es w1
    | (w1, inl e) =>
        match name sc with
        | Some n => process_all rest timestamp rs (es ++ [error_of n e]) w1
        | None => (w1, inl (KeyError "name"))
        end
    end.
Proof.
  simpl. unfold bind at 1. unfold try_except. unfold bind at 1.
  destruct (process_source sc timestamp w) as [w1 [e|r]]; [|done].
  unfold getitem. destruct (name sc); by run.
Qed.

Lemma process_all_app timestamp a b rs es w :
  process_all (a ++ b) timestamp rs es w =
    match process_all a timestamp rs es w with
    | (w1, inr out) => process_all b timestamp out.1 out.2 w1
    | (w1, inl e) => (w1, inl e)
    end.
Proof.
  revert rs es w. induction a as [|sc a IH]; intros rs es w; [done|].
  rewrite <- app_comm_cons, !process_all_cons.
  destruct (process_source sc timestamp w) as [w1 [e|r]]; [|apply IH].
  destruct (name sc); [apply IH|done].
Qed.

(** The only exception that leaves the loop is the [KeyError] of the
    [except] branch. *)
Lemma process_all_raises timestamp srcs rs es w w' e :
  process_all srcs timestamp rs es w = (w', inl e) → e = KeyError "name".
Proof.
  revert rs es w. induction srcs as [|sc srcs IH]; intros rs es w; [done|].
  rewrite process_all_cons.
  destruct (process_source sc timestamp w) as [w1 [e1|r]]; [|apply IH].
  destruct (name sc); [apply IH|]. by intros [= _ <-].
Qed.

(** A source without a name stops the loop where it stands: the sources after
    it play no part in the outcome. *)
Lemma process_all_nameless timestamp pre bad post rs es w :
  name bad = None →
  process_all (pre ++ bad :: post) timestamp rs es w =
    ((process_all pre timestamp rs es w).1, inl (KeyError "name")).
Proof.
  intros Hbad. rewrite process_all_app.
  destruct (process_all pre timestamp rs es w) as [w1 [e|out]] eqn:Hpre.
  - by rewrite (process_all_raises _ _ _ _ _ _ _ Hpre).
  - rewrite process_all_cons, process_source_nameless by done. by rewrite Hbad.
Qed.

(** A loop that completes has filed every source of its list once, under its
    name, among the results or among the errors. *)
Lemma process_all_completes timestamp srcs rs es w w' out :
  process_all srcs timestamp rs es w = (w', inr out) →
  ∃ drs des, out = (rs ++ drs, es ++ des) ∧
    Some <$> ((r_source <$> drs) ++ (e_source <$> des)) ≡ₚ name <$> srcs.
Proof.
  revert rs es w. induction srcs as [|sc srcs IH]; intros rs es w.
  - intros [= _ <-]. exists [], []. by rewrite !app_nil_r.
  - rewrite process_all_cons.
    destruct (process_source sc timestamp w) as [w1 [e|r]] eqn:Hsc.
    + destruct (name sc) as [n|] eqn:Hn; [|done].
      intros (drs & des & -> & Hp)%IH.
      exists drs, (error_of n e :: des). rewrite <- !app_assoc. split; [done|].
      csimpl. rewrite Hn, <- Hp, !fmap_app. csimpl.
      by rewrite Permutation_middle.
    + apply process_source_reports_name in Hsc.
      intros (drs & des & -> & Hp)%IH.
      exists (r :: drs), des. rewrite <- !app_assoc. split; [done|].
      csimpl. by rewrite Hsc, Hp.
Qed.

Lemma process_all_log timestamp srcs rs es w :
  (length (http_log (process_all srcs timestamp rs es w).1)
   ≤ length (http_log w) + length srcs)%nat.
Proof.
  revert rs es w. induction srcs as [|sc srcs IH]; intros rs es w; [simpl; lia|].
  rewrite process_all_cons.
  pose proof (process_source_log timestamp sc w) as Hlog.
  destruct (process_source sc timestamp w) as [w1 [e|r]]; simpl in *.
  - destruct (name sc); simpl.
    + etrans; [apply IH|]. lia.
    + lia.
  - etrans; [apply IH|]. lia.
Qed.

(** Over sources that all go through, the loop sends one request per source,
    in order, lands one object per result and files no error. *)
Lemma process_all_succeed timestamp srcs new_rs rs es w :
  Forall2 (succeeds timestamp) srcs new_rs →
  ∃ w' rqs,
    process_all srcs timestamp rs es w = (w', inr (rs ++ new_rs, es)) ∧
    http_log w' = http_log w ++ rqs ∧
    Some <$> rqs = request_of <$> srcs ∧
    dom (s3 w) ⊆ dom (s3 w') ∧
    Forall (λ r, (RAW_BUCKET, r_s3_key r) ∈ dom (s3 w')) new_rs.
Proof.
  intros Hall. revert rs w.
  induction Hall as [|sc r srcs new_rs Hsc _ IH]; intros rs w.
  - exists w, []. by rewrite !app_nil_r.
  - destruct (process_source_succeeds _ _ _ w Hsc)
      as (w1 & rq & Hrun & Hrq & Hlog & Hkey & Hdom).
    destruct (IH (rs ++ [r]) w1) as (w' & rqs & Hrest & Hlog' & Hrqs & Hdom' & Hkeys).
    exists w', (rq :: rqs). rewrite process_all_cons, Hrun, Hrest.
    rewrite <- app_assoc. split; [done|]. split.
    { by rewrite Hlog', Hlog, <- app_assoc. }
    csimpl. rewrite Hrq, Hrqs. split; [done|]. split; [set_solver|].
    constructor; [|done]. apply elem_of_dom in Hkey. set_solver.
Qed.

(** *** The filter on the requested name *)

Lemma filter_by_name_world wanted srcs w :
  (filter_by_name wanted srcs w).1 = w.
Proof.
  induction srcs as [|s srcs IH]; [done|]. simpl. run.
  destruct (name s); [|done]. simpl.
  destruct (filter_by_name wanted srcs w) as [w1 [e|kept]]; simpl in *; by subst.
Qed.

Lemma filter_by_name_nameless wanted pre bad post w :
  name bad = None →
  filter_by_name wanted (pre ++ bad :: post) w = (w, inl (KeyError "name")).
Proof.
  intros Hbad. induction pre as [|s pre IH]; simpl; run.
  - by rewrite Hbad.
  - destruct (name s); [|done]. simpl. by rewrite IH.
Qed.

Lemma select_sources_world event config w :
  (select_sources event config w).1 = w.
Proof.
  unfold select_sources. destruct (truthy _); [|done].
  apply filter_by_name_world.
Qed.

(** *** The handler, stage by stage *)

Lemma handler_unfold event timestamp w :
  handler event timestamp w =
    match secrets_get_config API_CONFIG_SECRET with
    | inl e => (w, inr (fatal_response timestamp e))
    | inr config =>
        match select_sources event config w with
        | (w1, inl e) => (w1, inr (fatal_response timestamp e))
        | (w1, inr srcs) =>
            match process_all srcs timestamp [] [] w1 with
            | (w2, inl e) => (w2, inr (fatal_response timestamp e))
            | (w2, inr out) =>
                (w2, inr (build_response timestamp srcs out.1 out.2))
            end
        end
    end.
Proof.
  unfold handler, try_except, get_api_config. unfold bind at 1.
  destruct (secrets_get_config _) as [e|config]; [done|].
  unfold bind at 1.
  destruct (select_sources event config w) as [w1 [e|srcs]]; [done|].
  unfold bind at 1.
  by destruct (process_all srcs timestamp [] [] w1) as [w2 [e|out]].
Qed.

(** *** Properties of a run *)

(** C1. Partial failure containment: when the fetch of one source of the run
    raises and the sources before and after it go through, the handler
    still sends the request of every source, in order, lands an object for
    every source that went through, and answers 207 with [total_sources] the
    number of sources of the run, the results of all the others, and one
    error entry, which carries the name of the failing source. *)
Theorem partial_failure_is_contained
    event timestamp w config pre bad post rs_pre rs_post n e :
  secrets_get_config API_CONFIG_SECRET = inr config →
  select_sources event config w = (w, inr (pre ++ bad :: post)) →
  Forall2 (succeeds timestamp) pre rs_pre →
  fetch_fails bad n e →
  Forall2 (succeeds timestamp) post rs_post →
  ∃ w' rqs,
    handler event timestamp w =
      (w', inr {| statusCode := 207;
                  resp_body :=
                    ReportBody (isoformat timestamp)
                      (length (pre ++ bad :: post))
                      (length (pre ++ post)) 1
                      (rs_pre ++ rs_post) [error_of n e] |}) ∧
    http_log w' = http_log w ++ rqs ∧
    Some <$> rqs = request_of <$> (pre ++ bad :: post) ∧
    Forall (λ r, (RAW_BUCKET, r_s3_key r) ∈ dom (s3 w')) (rs_pre ++ rs_post).
Proof.
  intros Hcfg Hsel Hpre Hbad Hpost.
  destruct (process_all_succeed timestamp pre rs_pre [] [] w Hpre)
    as (w1 & rqs1 & Hrun1 & Hlog1 & Hrqs1 & Hdom1 & Hkeys1).
  destruct (process_source_fetch_fails timestamp bad n e w1 Hbad)
    as (rq & Hrq & Hrun2).
  set (w2 := {| s3 := s3 w1; http_log := http_log w1 ++ [rq] |}) in *.
  destruct (process_all_succeed timestamp post rs_post rs_pre [error_of n e] w2 Hpost)
    as (w3 & rqs3 & Hrun3 & Hlog3 & Hrqs3 & Hdom3 & Hkeys3).
  exists w3, (rqs1 ++ rq :: rqs3).
  rewrite handler_unfold, Hcfg, Hsel, process_all_app, Hrun1.
  rewrite process_all_cons, Hrun2. destruct Hbad as (? & -> & _). simpl.
  rewrite Hrun3. simpl.
  split.
  { unfold build_response. simpl. rewrite !length_app. simpl.
    by rewrite (Forall2_length _ _ _ Hpre), (Forall2_length _ _ _ Hpost). }
  split.
  { rewrite Hlog3. subst w2. simpl. rewrite Hlog1, <- !app_assoc. done. }
  split.
  { rewrite !fmap_app. csimpl. by rewrite Hrqs1, Hrq, Hrqs3. }
  apply Forall_app. split; [|done].
  eapply Forall_impl; [exact Hkeys1|]. simpl. intros r Hr. set_solver.
Qed.


(** C7. Counts add up: in the report of a run that is not fatal, the number
    of results plus the number of errors is [total_sources], which is the
    length of the source list left by the name filter; and every source of
    that list is filed once, under its name, as a result or as an error. *)
Theorem report_counts_add_up event timestamp w w' resp :
  handler event timestamp w = (w', inr resp) →
  statusCode resp ≠ 500%Z →
  ∃ config srcs results errors,
    secrets_get_config API_CONFIG_SECRET = inr config ∧
    select_sources event config w = (w, inr srcs) ∧
    resp_body resp =
      ReportBody (isoformat timestamp) (length srcs)
        (length results) (length errors) results errors ∧
    (length results + length errors = length srcs)%nat ∧
    Some <$> ((r_source <$> results) ++ (e_source <$> errors)) ≡ₚ name <$> srcs.
Proof.
  rewrite handler_unfold.
  destruct (secrets_get_config _) as [e|config]; [by intros [= _ <-]|].
  pose proof (select_sources_world event config w) as Hw.
  destruct (select_sources event config w) as [w1 [e|srcs]] eqn:Hsel;
    [by intros [= _ <-]|].
  simpl in Hw. subst w1.
  destruct (process_all srcs timestamp [] [] w) as [w2 [e|out]] eqn:Hrun;
    [by intros [= _ <-]|].
  intros [= _ <-] _.
  apply process_all_completes in Hrun as (rs & es & -> & Hperm).
  exists config, srcs, rs, es. simpl. split_and!; try done.
  apply Permutation_length in Hperm.
  by rewrite !length_fmap, length_app, !length_fmap in Hperm.
Qed.

(** C8. Fatal short-circuit: when the configuration cannot be retrieved, the
    handler sends no request and lands no object (the world is the one it
    started in), and it answers with the fatal body and code 500, which has
    no per-source entries. *)
Theorem config_failure_is_fatal event timestamp w e :
  secrets_get_config API_CONFIG_SECRET = inl e →
  get_api_config w = (w, inl e) ∧
  handler event timestamp w =
    (w, inr {| statusCode := 500;
               resp_body := FatalBody (str_exn e) (isoformat timestamp) |}).
Proof.
  intros He. unfold get_api_config. rewrite handler_unfold, He. done.
Qed.

(** C10. A source without the ['name'] key breaks the containment: the
    [KeyError] raised while the [except] branch builds the error entry leaves
    the loop, whatever sources follow; the handler answers 500 with that
    error, and the world is the one left by the sources before the nameless
    one (or the initial one, when the name filter is on), so that none of the
    sources after it is processed. *)
Theorem nameless_source_is_fatal event timestamp w config pre bad post :
  secrets_get_config API_CONFIG_SECRET = inr config →
  sources config = Some (pre ++ bad :: post) →
  name bad = None →
  (∀ rs es w0,
     process_all (bad :: post) timestamp rs es w0 =
       (w0, inl (KeyError "name"))) ∧
  ∃ w',
    handler event timestamp w =
      (w', inr {| statusCode := 500;
                  resp_body := FatalBody "'name'" (isoformat timestamp) |}) ∧
    w' = (if truthy (event !! "source_name") then w
          else (process_all pre timestamp [] [] w).1) ∧
    (length (http_log w') ≤ length (http_log w) + length pre)%nat.
Proof.
  intros Hcfg Hsrcs Hbad. split.
  { intros rs es w0.
    exact (process_all_nameless timestamp [] bad post rs es w0 Hbad). }
  rewrite handler_unfold, Hcfg. unfold select_sources. rewrite Hsrcs. simpl.
  destruct (truthy (event !! "source_name")).
  - rewrite filter_by_name_nameless by done.
    eexists. split; [done|]. split; [done|]. lia.
  - unfold ret. rewrite process_all_nameless by done.
    eexists. split; [done|]. split; [done|]. apply process_all_log.
Qed.

(** *** Further properties of the functions of [handler.py] *)

Set Default Proof Using "Type".

Ltac sets :=
  try clear secrets_get_config; try clear requests_get;
  try clear s3_put_object; try clear environ;
  set_solver.

(** [process_source] lands an object exactly when it succeeds: a source that
    raises (no name, no URL, a failed fetch, a refused put) leaves the bucket
    as it was; a source that goes through has a name and a URL, the payload
    [data] is what the endpoint answered to the request of that source, and
    the run adds one object, under the key of its result, which wraps that
    payload with the name; the result reports the name, the count of that
    payload and the key. *)
Theorem process_source_lands_iff_succeeds sc timestamp w :
  match process_source sc timestamp w with
  | (w', inl _) => s3 w' = s3 w
  | (w', inr r) =>
      ∃ n u data,
        name sc = Some n ∧ url sc = Some u ∧
        requests_get {| req_url := u; req_headers := build_headers sc;
                        req_params := params sc; req_timeout := 30 |}
          = inr data ∧
        s3 w' = <[(RAW_BUCKET, object_key n timestamp) :=
                    data_with_metadata data n timestamp]> (s3 w) ∧
        r = {| r_source := n; r_status := "success";
               r_record_count := record_count data;
               r_s3_key := object_key n timestamp |}
  end.
Proof.
  unfold process_source, fetch_api_data, upload_to_s3. run.
  destruct (name sc) as [n|]; [|done]. simpl.
  destruct (url sc) as [u|]; [|done]. simpl.
  destruct (requests_get _) as [e|data] eqn:Hget; [done|]. simpl.
  destruct (s3_put_object _ _ _) as [e|]; [done|]. simpl.
  by exists n, u, data.
Qed.

(** Two uploads for one source name at two instants of one second (the
    clock readings agree down to the second and may differ in the
    microsecond) go to one key: the bucket ends as if only the second had
    been made, and the key holds the second envelope. *)
Theorem same_second_upload_overwrites d1 d2 n t1 t2 w :
  year t1 = year t2 → month t1 = month t2 → day t1 = day t2 →
  hour t1 = hour t2 → minute t1 = minute t2 → second t1 = second t2 →
  s3_put_object RAW_BUCKET (object_key n t1)
    (data_with_metadata d1 n t1) = None →
  s3_put_object RAW_BUCKET (object_key n t2)
    (data_with_metadata d2 n t2) = None →
  ∃ w1 w2 key,
    object_key n t1 = key ∧ object_key n t2 = key ∧
    upload_to_s3 d1 n t1 w = (w1, inr key) ∧
    upload_to_s3 d2 n t2 w1 = (w2, inr key) ∧
    s3 w2 = <[(RAW_BUCKET, key) := data_with_metadata d2 n t2]> (s3 w) ∧
    s3 w2 !! (RAW_BUCKET, key) = Some (data_with_metadata d2 n t2).
Proof.
  intros Hy Hmo Hd Hh Hmi Hs H1 H2.
  assert (object_key n t1 = object_key n t2) as Hkey.
  { unfold object_key, partition_path, filename, strftime_compact.
    by rewrite Hy, Hmo, Hd, Hh, Hmi, Hs. }
  unfold upload_to_s3. rewrite H1. simpl. rewrite H2, Hkey.
  eexists _, _, (object_key n t2). repeat (split; [done|]). simpl.
  rewrite insert_insert_eq. split; [done|]. by rewrite lookup_insert_eq.
Qed.

(** The request of a source that has a name and a URL: it goes to that URL
    with the configured parameters and a timeout of 30, declares JSON, and
    carries a bearer token exactly when the configured key is a non-empty
    string; no other header is sent. *)
Theorem request_of_a_source sc timestamp w n u :
  name sc = Some n → url sc = Some u →
  ∃ rq,
    http_log (process_source sc timestamp w).1 = http_log w ++ [rq] ∧
    req_url rq = u ∧ req_params rq = params sc ∧ req_timeout rq = 30%nat ∧
    req_headers rq !! "Content-Type" = Some "application/json" ∧
    req_headers rq !! "Authorization" =
      (match api_key sc with
       | Some k => if String.eqb k "" then None else Some ("Bearer " +:+ k)
       | None => None
       end) ∧
    dom (req_headers rq) ⊆ {["Content-Type"; "Authorization"]}.
Proof.
  intros Hn Hu. unfold process_source, fetch_api_data, upload_to_s3.
  rewrite Hn, Hu. run.
  eexists. split.
  { destruct (requests_get _); [done|]. simpl.
    by destruct (s3_put_object _ _ _). }
  simpl. repeat (split; [done|]).
  unfold build_headers, truthy.
  destruct (api_key sc) as [k|]; simpl.
  - destruct (String.eqb k ""); simpl.
    + rewrite lookup_singleton_eq, lookup_singleton_ne by done.
      repeat split; [done..|]. sets.
    + rewrite lookup_insert_ne, lookup_singleton_eq, lookup_insert_eq by done.
      repeat split; [done..|]. sets.
  - rewrite lookup_singleton_eq, lookup_singleton_ne by done.
    repeat split; [done..|]. sets.
Qed.

(** A source with a name and no URL is a contained failure: no request is
    sent, nothing is landed, and the loop files the error ['url'] under the
    name of the source and goes on with the next one. *)
Theorem missing_url_is_contained sc rest timestamp rs es w n :
  name sc = Some n → url sc = None →
  process_source sc timestamp w = (w, inl (KeyError "url")) ∧
  process_all (sc :: rest) timestamp rs es w =
    process_all rest timestamp rs
      (es ++ [{| e_source := n; e_status := "error"; e_message := "'url'" |}]) w.
Proof.
  intros Hn Hu.
  assert (process_source sc timestamp w = (w, inl (KeyError "url"))) as Hrun.
  { unfold process_source. rewrite Hn, Hu. by run. }
  split; [done|]. by rewrite process_all_cons, Hrun, Hn.
Qed.

(** A refused put is contained like a failed fetch: the request was sent,
    nothing is landed, and the loop files the error under the name of the
    source and goes on. *)
Theorem refused_put_is_contained sc rest timestamp rs es w n u data e :
  name sc = Some n → url sc = Some u →
  requests_get {| req_url := u; req_headers := build_headers sc;
                  req_params := params sc; req_timeout := 30 |} = inr data →
  s3_put_object RAW_BUCKET (object_key n timestamp)
    (data_with_metadata data n timestamp) = Some e →
  ∃ w1,
    process_source sc timestamp w = (w1, inl e) ∧
    s3 w1 = s3 w ∧ length (http_log w1) = S (length (http_log w)) ∧
    process_all (sc :: rest) timestamp rs es w =
      process_all rest timestamp rs (es ++ [error_of n e]) w1.
Proof.
  intros Hn Hu Hget Hput. eexists.
  assert (process_source sc timestamp w =
            ({| s3 := s3 w;
                http_log := http_log w ++
                  [{| req_url := u; req_headers := build_headers sc;
                      req_params := params sc; req_timeout := 30 |}] |},
             inl e)) as Hrun.
  { unfold process_source, fetch_api_data, upload_to_s3.
    rewrite Hn, Hu. run. by rewrite Hget, Hput. }
  split; [exact Hrun|]. split; [done|]. split.
  { simpl. rewrite length_app. simpl. lia. }
  by rewrite process_all_cons, Hrun, Hn.
Qed.

(** When every source has a name, nothing leaves the loop: whatever the
    endpoints and S3 answer, every source is filed as a result or as an
    error. *)
Lemma process_all_named timestamp srcs rs es w :
  Forall (λ s, is_Some (name s)) srcs →
  ∃ w' out, process_all srcs timestamp rs es w = (w', inr out).
Proof.
  intros Hall. revert rs es w.
  induction Hall as [|sc srcs [n Hn] _ IH]; intros rs es w.
  - by eexists _, _.
  - rewrite process_all_cons.
    destruct (process_source sc timestamp w) as [w1 [e|r]]; [|apply IH].
    rewrite Hn. apply IH.
Qed.

(** On sources that all have a name the filter is the plain one: it keeps,
    in order, the sources whose name is the wanted one, and touches
    nothing. *)
Lemma filter_by_name_named wanted srcs w :
  Forall (λ s, is_Some (name s)) srcs →
  filter_by_name wanted srcs w =
    (w, inr (filter (λ s, name s = Some wanted) srcs)).
Proof.
  intros Hall. induction Hall as [|s srcs [n Hn] _ IH]; [done|].
  simpl. run. rewrite Hn. simpl. rewrite IH. simpl.
  rewrite filter_cons, Hn.
  destruct (String.eqb_spec n wanted) as [->|Hne].
  - by rewrite decide_True.
  - by rewrite decide_False by congruence.
Qed.

(** With the configuration at hand and a name on every configured source,
    the run is never fatal: the handler answers 200 or 207 with a report on
    exactly the sources selected (all of them, or those of the requested
    name), whatever the endpoints and S3 do. *)
Theorem named_sources_never_fatal event timestamp w config :
  secrets_get_config API_CONFIG_SECRET = inr config →
  Forall (λ s, is_Some (name s)) (default [] (sources config)) →
  ∃ w' results errors,
    let selected :=
      if truthy (event !! "source_name")
      then filter (λ s, name s = Some (default "" (event !! "source_name")))
             (default [] (sources config))
      else default [] (sources config) in
    handler event timestamp w =
      (w', inr (build_response timestamp selected results errors)) ∧
    (length results + length errors = length selected)%nat ∧
    (statusCode (build_response timestamp selected results errors) = 200%Z ∨
     statusCode (build_response timestamp selected results errors) = 207%Z).
Proof.
  intros Hcfg Hall. rewrite handler_unfold, Hcfg. unfold select_sources.
  destruct (truthy (event !! "source_name")).
  - rewrite filter_by_name_named by done.
    set (selected := filter _ _).
    assert (Forall (λ s, is_Some (name s)) selected) as Hsel.
    { apply Forall_forall. intros s [_ Hs]%list_elem_of_filter.
      by apply (proj1 (Forall_forall _ _) Hall). }
    destruct (process_all_named timestamp selected [] [] w Hsel)
      as (w' & out & Hrun).
    rewrite Hrun.
    apply process_all_completes in Hrun as (rs & es & -> & Hperm).
    exists w', rs, es. simpl. split; [done|]. split.
    + apply Permutation_length in Hperm.
      by rewrite !length_fmap, length_app, !length_fmap in Hperm.
    + case_bool_decide; auto.
  - unfold ret.
    destruct (process_all_named timestamp (default [] (sources config)) [] [] w Hall)
      as (w' & out & Hrun).
    rewrite Hrun.
    apply process_all_completes in Hrun as (rs & es & -> & Hperm).
    exists w', rs, es. simpl. split; [done|]. split.
    + apply Permutation_length in Hperm.
      by rewrite !length_fmap, length_app, !length_fmap in Hperm.
    + case_bool_decide; auto.
Qed.

(** A run over no source at all is a plain success: when the secret has no
    ['sources'] key or an empty list, or when a name is requested that no
    source carries, the handler answers 200 with all counts zero, sends no
    request and lands nothing. *)
Theorem empty_run_is_a_success event timestamp w config :
  secrets_get_config API_CONFIG_SECRET = inr config →
  default [] (sources config) = [] ∨
  (truthy (event !! "source_name") = true ∧
   Forall (λ s, ∃ n, name s = Some n ∧
                     n ≠ default "" (event !! "source_name"))
     (default [] (sources config))) →
  handler event timestamp w =
    (w, inr {| statusCode := 200;
               resp_body := ReportBody (isoformat timestamp) 0 0 0 [] [] |}).
Proof.
  intros Hcfg Hempty.
  assert (select_sources event config w = (w, inr [])) as Hsel.
  { unfold select_sources. destruct Hempty as [->|[Hev Hall]].
    - by destruct (truthy (event !! "source_name")).
    - rewrite Hev, filter_by_name_named.
      + do 2 f_equal. induction Hall as [|s l (n & Hn & Hne) _ IH]; [done|].
        rewrite filter_cons, decide_False; [done|]. congruence.
      + eapply Forall_impl; [exact Hall|]. intros s (n & -> & _). by eexists. }
  by rewrite handler_unfold, Hcfg, Hsel.
Qed.

(** A requested source name that is the empty string is no filter at all:
    the run is the one of the event without the key. *)
Theorem empty_source_name_is_no_filter event timestamp w :
  event !! "source_name" = Some "" →
  handler event timestamp w = handler (delete "source_name" event) timestamp w.
Proof.
  intros Hev. rewrite !handler_unfold.
  destruct (secrets_get_config _) as [e|config]; [done|].
  unfold select_sources. by rewrite Hev, lookup_delete_eq.
Qed.

Lemma process_source_bucket sc timestamp w :
  match process_source sc timestamp w with
  | (w', inl _) => s3 w' = s3 w
  | (w', inr r) => ∃ obj, s3 w' = <[(RAW_BUCKET, r_s3_key r) := obj]> (s3 w)
  end.
Proof.
  unfold process_source, fetch_api_data, upload_to_s3. run.
  destruct (name sc) as [n|]; [|done]. simpl.
  destruct (url sc) as [u|]; [|done]. simpl.
  destruct (requests_get _) as [e|data]; [done|]. simpl.
  destruct (s3_put_object _ _ _) as [e|]; [done|]. simpl.
  by eexists.
Qed.

(** The bucket after the loop: the objects that were there, and one object
    under the key of every result the loop added; nothing else is written,
    whether the loop completes or not. *)
Lemma process_all_bucket timestamp srcs rs es w :
  ∃ keys : list (string * string),
    dom (s3 (process_all srcs timestamp rs es w).1) = dom (s3 w) ∪ list_to_set keys ∧
    ∀ out, (process_all srcs timestamp rs es w).2 = inr out →
           ∃ drs, out.1 = rs ++ drs ∧
                  keys = (λ r, (RAW_BUCKET, r_s3_key r)) <$> drs.
Proof.
  revert rs es w. induction srcs as [|sc srcs IH]; intros rs es w.
  - exists []. split; [sets|]. intros out [= <-]. exists [].
    by rewrite app_nil_r.
  - rewrite process_all_cons.
    pose proof (process_source_bucket sc timestamp w) as Hsc.
    destruct (process_source sc timestamp w) as [w1 [e|r]].
    + destruct (name sc) as [n|].
      * destruct (IH rs (es ++ [error_of n e]) w1) as (keys & Hdom & Hout).
        exists keys. by rewrite Hdom, Hsc.
      * exists []. simpl. split; [rewrite Hsc; sets|]. by intros out [=].
    + destruct Hsc as (obj & Hs3).
      destruct (IH (rs ++ [r]) es w1) as (keys & Hdom & Hout).
      exists ((RAW_BUCKET, r_s3_key r) :: keys). split.
      * rewrite Hdom, Hs3, dom_insert_L. sets.
      * intros out Ho. destruct (Hout out Ho) as (drs & H1 & ->).
        exists (r :: drs). by rewrite H1, <- app_assoc.
Qed.

(** What a run leaves in the bucket: in a run that is not fatal, the new
    objects are exactly those under the keys of the reported results. *)
Theorem landed_objects_are_reported event timestamp w w' code ts n a b rs es :
  handler event timestamp w =
    (w', inr {| statusCode := code; resp_body := ReportBody ts n a b rs es |}) →
  dom (s3 w') =
    dom (s3 w) ∪ list_to_set ((λ r, (RAW_BUCKET, r_s3_key r)) <$> rs).
Proof.
  rewrite handler_unfold.
  destruct (secrets_get_config _) as [e|config]; [done|].
  pose proof (select_sources_world event config w) as Hw.
  destruct (select_sources event config w) as [w1 [e|srcs]]; [done|].
  simpl in Hw. subst w1.
  destruct (process_all_bucket timestamp srcs [] [] w) as (keys & Hdom & Hout).
  destruct (process_all srcs timestamp [] [] w) as [w2 [e|out]]; [done|].
  intros [= <- _ _ _ _ _ <- _]. simpl in *.
  destruct (Hout out eq_refl) as (drs & -> & ->). done.
Qed.

End Handler.

(** *** A run on three sources, the second of which is down *)

Definition sample_source (n : string) : source_config :=
  {| name := Some n;
     url := Some ("https://" +:+ n +:+ ".example/items");
     api_key := None;
     params := None |}.

Definition sample_config : api_config :=
  {| sources := Some [sample_source "a"; sample_source "b"; sample_source "c"] |}.

Definition sample_secrets (_ : string) : exn + api_config := inr sample_config.

Definition no_secrets (_ : string) : exn + api_config :=
  inl (ClientError "AccessDeniedException").

Definition sample_payload : json :=
  JArr [JObj [("id", JNum 1); ("ts", JStr "2024-01-01T00:00:00Z")]].

Definition sample_endpoints (rq : http_request) : exn + json :=
  if String.eqb (req_url rq) "https://b.example/items"
  then inl (RequestException "503 Server Error")
  else inr sample_payload.

Definition s3_accepts (_ _ : string) (_ : s3_object) : option exn := None.

Definition sample_time : datetime :=
  {| year := 2024; month := 3; day := 15;
     hour := 10; minute := 0; second := 0; microsecond := 0 |}.

Definition empty_world : world := {| s3 := ∅; http_log := [] |}.

Definition sample_result (n : string) : result :=
  {| r_source := n; r_status := "success"; r_record_count := 1;
     r_s3_key := n +:+ "/year=2024/month=03/day=15/hour=10/" +:+ n
                 +:+ "_20240315_100000.json" |}.

Lemma sample_a_succeeds :
  succeeds ∅ sample_endpoints s3_accepts sample_time
    (sample_source "a") (sample_result "a").
Proof. eexists "a", _, sample_payload. repeat (split; [reflexivity|]). reflexivity. Qed.

Lemma sample_c_succeeds :
  succeeds ∅ sample_endpoints s3_accepts sample_time
    (sample_source "c") (sample_result "c").
Proof. eexists "c", _, sample_payload. repeat (split; [reflexivity|]). reflexivity. Qed.

Lemma sample_b_fetch_fails :
  fetch_fails sample_endpoints (sample_source "b") "b"
    (RequestException "503 Server Error").
Proof. eexists. repeat (split; [reflexivity|]). reflexivity. Qed.


Definition sample_response : response :=
  {| statusCode := 207;
     resp_body :=
       ReportBody "2024-03-15T10:00:00" 3 2 1
         [sample_result "a"; sample_result "c"]
         [{| e_source := "b"; e_status := "error";
             e_message := "503 Server Error" |}] |}.



(** *** A run whose second source has no name *)

Definition nameless_source : source_config :=
  {| name := None; url := Some "https://b.example/items";
     api_key := None; params := None |}.

Definition nameless_config : api_config :=
  {| sources := Some [sample_source "a"; nameless_source; sample_source "c"] |}.

Definition nameless_secrets (_ : string) : exn + api_config := inr nameless_config.


Lemma partial_failure_is_contained_witness :
  ∃ w' rqs,
    handler ∅ sample_secrets sample_endpoints s3_accepts ∅ sample_time empty_world =
      (w', inr {| statusCode := 207;
                  resp_body :=
                    ReportBody (isoformat sample_time) 3 2 1
                      [sample_result "a"; sample_result "c"]
                      [error_of "b" (RequestException "503 Server Error")] |}) ∧
    http_log w' = http_log empty_world ++ rqs ∧
    Some <$> rqs =
      request_of <$> [sample_source "a"; sample_source "b"; sample_source "c"] ∧
    Forall (λ r, (RAW_BUCKET ∅, r_s3_key r) ∈ dom (s3 w'))
      [sample_result "a"; sample_result "c"].
Proof.
  apply (partial_failure_is_contained ∅ sample_secrets sample_endpoints
           s3_accepts ∅ sample_time empty_world sample_config
           [sample_source "a"] (sample_source "b") [sample_source "c"]
           [sample_result "a"] [sample_result "c"]
           "b" (RequestException "503 Server Error")).
  - reflexivity.
  - reflexivity.
  - repeat constructor. exact sample_a_succeeds.
  - exact sample_b_fetch_fails.
  - repeat constructor. exact sample_c_succeeds.
Defined.

Lemma sample_run_response :
  (handler ∅ sample_secrets sample_endpoints s3_accepts ∅ sample_time
     empty_world).2 = inr sample_response.
Proof. vm_compute. reflexivity. Qed.

Lemma report_counts_add_up_witness :
  ∃ config srcs results errors,
    sample_secrets (API_CONFIG_SECRET ∅) = inr config ∧
    select_sources ∅ config empty_world = (empty_world, inr srcs) ∧
    resp_body sample_response =
      ReportBody (isoformat sample_time) (length srcs)
        (length results) (length errors) results errors ∧
    (length results + length errors = length srcs)%nat ∧
    Some <$> ((r_source <$> results) ++ (e_source <$> errors)) ≡ₚ name <$> srcs.
Proof.
  apply (report_counts_add_up ∅ sample_secrets sample_endpoints s3_accepts
           ∅ sample_time empty_world
           (handler ∅ sample_secrets sample_endpoints s3_accepts
              ∅ sample_time empty_world).1
           sample_response).
  - rewrite <- sample_run_response. apply surjective_pairing.
  - discriminate.
Defined.

Lemma config_failure_is_fatal_witness :
  get_api_config ∅ no_secrets empty_world =
    (empty_world, inl (ClientError "AccessDeniedException")) ∧
  handler ∅ no_secrets sample_endpoints s3_accepts
    {["source_name" := "a"]} sample_time empty_world =
    (empty_world,
     inr {| statusCode := 500;
            resp_body := FatalBody "AccessDeniedException"
                           (isoformat sample_time) |}).
Proof.
  apply (config_failure_is_fatal ∅ no_secrets sample_endpoints s3_accepts
           {["source_name" := "a"]} sample_time empty_world
           (ClientError "AccessDeniedException")).
  reflexivity.
Defined.

Lemma nameless_source_is_fatal_witness :
  (∀ rs es w0,
     process_all ∅ sample_endpoints s3_accepts
       [nameless_source; sample_source "c"] sample_time rs es w0 =
       (w0, inl (KeyError "name"))) ∧
  ∃ w',
    handler ∅ nameless_secrets sample_endpoints s3_accepts ∅ sample_time
      empty_world =
      (w', inr {| statusCode := 500;
                  resp_body := FatalBody "'name'" (isoformat sample_time) |}) ∧
    w' = (if truthy ((∅ : gmap string string) !! "source_name") then empty_world
          else (process_all ∅ sample_endpoints s3_accepts
                  [sample_source "a"] sample_time [] [] empty_world).1) ∧
    (length (http_log w') ≤ length (http_log empty_world) + 1)%nat.
Proof.
  apply (nameless_source_is_fatal ∅ nameless_secrets sample_endpoints
           s3_accepts ∅ sample_time empty_world nameless_config
           [sample_source "a"] nameless_source [sample_source "c"]);
    reflexivity.
Defined.

(** *** The further properties on the sample run *)

Definition keyed_source : source_config :=
  {| name := Some "k"; url := Some "https://k.example/items";
     api_key := Some "s3cr3t"; params := Some {["page" := "1"]} |}.

Definition no_url_source : source_config :=
  {| name := Some "u"; url := None; api_key := None; params := None |}.

Definition s3_refuses (_ _ : string) (_ : s3_object) : option exn :=
  Some (ClientError "AccessDenied").

Definition no_sources_secrets (_ : string) : exn + api_config :=
  inr {| sources := None |}.

Definition later_that_second : datetime :=
  {| year := 2024; month := 3; day := 15;
     hour := 10; minute := 0; second := 0; microsecond := 250 |}.

Lemma same_second_upload_overwrites_witness :
  ∃ w1 w2 key,
    object_key "a" sample_time = key ∧ object_key "a" later_that_second = key ∧
    upload_to_s3 ∅ s3_accepts JNull "a" sample_time empty_world = (w1, inr key) ∧
    upload_to_s3 ∅ s3_accepts sample_payload "a" later_that_second w1
      = (w2, inr key) ∧
    s3 w2 = <[(RAW_BUCKET ∅, key) :=
                data_with_metadata sample_payload "a" later_that_second]>
              (s3 empty_world) ∧
    s3 w2 !! (RAW_BUCKET ∅, key)
      = Some (data_with_metadata sample_payload "a" later_that_second).
Proof.
  apply (same_second_upload_overwrites ∅ s3_accepts JNull sample_payload "a"
           sample_time later_that_second empty_world); reflexivity.
Defined.

Lemma request_of_a_source_witness :
  ∃ rq,
    http_log (process_source ∅ sample_endpoints s3_accepts keyed_source
                sample_time empty_world).1 = http_log empty_world ++ [rq] ∧
    req_url rq = "https://k.example/items" ∧
    req_params rq = params keyed_source ∧ req_timeout rq = 30%nat ∧
    req_headers rq !! "Content-Type" = Some "application/json" ∧
    req_headers rq !! "Authorization" =
      (match api_key keyed_source with
       | Some k => if String.eqb k "" then None else Some ("Bearer " +:+ k)
       | None => None
       end) ∧
    dom (req_headers rq) ⊆ {["Content-Type"; "Authorization"]}.
Proof.
  apply (request_of_a_source ∅ sample_endpoints s3_accepts keyed_source
           sample_time empty_world "k" "https://k.example/items");
    reflexivity.
Defined.

Lemma missing_url_is_contained_witness :
  process_source ∅ sample_endpoints s3_accepts no_url_source sample_time
    empty_world = (empty_world, inl (KeyError "url")) ∧
  process_all ∅ sample_endpoints s3_accepts
    [no_url_source; sample_source "a"] sample_time [] [] empty_world =
    process_all ∅ sample_endpoints s3_accepts [sample_source "a"] sample_time []
      ([] ++ [{| e_source := "u"; e_status := "error"; e_message := "'url'" |}])
      empty_world.
Proof.
  apply (missing_url_is_contained ∅ sample_endpoints s3_accepts no_url_source
           [sample_source "a"] sample_time [] [] empty_world "u");
    reflexivity.
Defined.

Lemma refused_put_is_contained_witness :
  ∃ w1,
    process_source ∅ sample_endpoints s3_refuses (sample_source "a") sample_time
      empty_world = (w1, inl (ClientError "AccessDenied")) ∧
    s3 w1 = s3 empty_world ∧
    length (http_log w1) = S (length (http_log empty_world)) ∧
    process_all ∅ sample_endpoints s3_refuses
      [sample_source "a"; sample_source "c"] sample_time [] [] empty_world =
      process_all ∅ sample_endpoints s3_refuses [sample_source "c"] sample_time
        [] ([] ++ [error_of "a" (ClientError "AccessDenied")]) w1.
Proof.
  apply (refused_put_is_contained ∅ sample_endpoints s3_refuses
           (sample_source "a") [sample_source "c"] sample_time [] []
           empty_world "a" "https://a.example/items" sample_payload
           (ClientError "AccessDenied")); reflexivity.
Defined.

Lemma sample_sources_named :
  Forall (λ s, is_Some (name s)) (default [] (sources sample_config)).
Proof. repeat constructor; by eexists. Qed.

Lemma named_sources_never_fatal_witness :
  ∃ w' results errors,
    let selected :=
      if truthy (({["source_name" := "b"]} : gmap string string) !! "source_name")
      then filter (λ s, name s = Some (default ""
                     (({["source_name" := "b"]} : gmap string string)
                        !! "source_name")))
             (default [] (sources sample_config))
      else default [] (sources sample_config) in
    handler ∅ sample_secrets sample_endpoints s3_accepts
      {["source_name" := "b"]} sample_time empty_world =
      (w', inr (build_response sample_time selected results errors)) ∧
    (length results + length errors = length selected)%nat ∧
    (statusCode (build_response sample_time selected results errors) = 200%Z ∨
     statusCode (build_response sample_time selected results errors) = 207%Z).
Proof.
  apply (named_sources_never_fatal ∅ sample_secrets sample_endpoints s3_accepts
           {["source_name" := "b"]} sample_time empty_world sample_config).
  - reflexivity.
  - exact sample_sources_named.
Defined.

Lemma empty_run_is_a_success_witness :
  handler ∅ no_sources_secrets sample_endpoints s3_accepts ∅ sample_time
    empty_world =
    (empty_world,
     inr {| statusCode := 200;
            resp_body := ReportBody (isoformat sample_time) 0 0 0 [] [] |}) ∧
  handler ∅ sample_secrets sample_endpoints s3_accepts
    {["source_name" := "zzz"]} sample_time empty_world =
    (empty_world,
     inr {| statusCode := 200;
            resp_body := ReportBody (isoformat sample_time) 0 0 0 [] [] |}).
Proof.
  split.
  - apply (empty_run_is_a_success ∅ no_sources_secrets sample_endpoints
             s3_accepts ∅ sample_time empty_world {| sources := None |});
      [reflexivity|]. by left.
  - apply (empty_run_is_a_success ∅ sample_secrets sample_endpoints
             s3_accepts {["source_name" := "zzz"]} sample_time empty_world
             sample_config); [reflexivity|].
    right. split; [reflexivity|].
    repeat constructor; eexists; (split; [reflexivity|discriminate]).
Defined.

Lemma empty_source_name_is_no_filter_witness :
  handler ∅ sample_secrets sample_endpoints s3_accepts
    {["source_name" := ""]} sample_time empty_world =
  handler ∅ sample_secrets sample_endpoints s3_accepts
    (delete "source_name" {["source_name" := ""]}) sample_time empty_world.
Proof.
  apply (empty_source_name_is_no_filter ∅ sample_secrets sample_endpoints
           s3_accepts {["source_name" := ""]} sample_time empty_world).
  reflexivity.
Defined.

Lemma landed_objects_are_reported_witness :
  dom (s3 (handler ∅ sample_secrets sample_endpoints s3_accepts ∅ sample_time
             empty_world).1) =
    dom (s3 empty_world) ∪
    list_to_set ((λ r, (RAW_BUCKET ∅, r_s3_key r))
                   <$> [sample_result "a"; sample_result "c"]).
Proof.
  apply (landed_objects_are_reported ∅ sample_secrets sample_endpoints
           s3_accepts ∅ sample_time empty_world
           (handler ∅ sample_secrets sample_endpoints s3_accepts ∅ sample_time
              empty_world).1
           207 "2024-03-15T10:00:00" 3 2 1
           [sample_result "a"; sample_result "c"]
           [{| e_source := "b"; e_status := "error";
               e_message := "503 Server Error" |}]).
  change (inr _) with (@inr exn response sample_response).
  rewrite <- sample_run_response. apply surjective_pairing.
Defined.

End Ingestion.

(** ** [raw_to_processed.py]: clean, annotate, partition and write *)

Module RawToProcessed.
Import Py.

(** *** Spark data *)

(** The column types the job meets, under the names of their classes. *)
Inductive DataType :=
| StringType | IntegerType | LongType | BooleanType | TimestampType | DateType.

Definition class_name (t : DataType) : string :=
  match t with
  | StringType => "StringType"
  | IntegerType => "IntegerType"
  | LongType => "LongType"
  | BooleanType => "BooleanType"
  | TimestampType => "TimestampType"
  | DateType => "DateType"
  end.

(** [str(f.dataType)].  The types define no [__str__], so this is their
    [__repr__]: the class name up to PySpark 3.2 (["StringType"]), and the
    class name followed by a pair of parentheses from PySpark 3.3 on
    (["StringType()"]). *)
Definition dataType_str (pyspark_3_3 : bool) (t : DataType) : string :=
  class_name t +:+ (if pyspark_3_3 then "()" else "").

(** A cell that is not null.  Timestamps are microseconds and dates are days
    since the epoch, as the engine stores them. *)
Inductive Value :=
| VString (s : string)
| VInt (z : Z)
| VLong (z : Z)
| VBoolean (b : bool)
| VTimestamp (micros : Z)
| VDate (days : Z).

#[global] Instance Value_eq_dec : EqDecision Value.
Proof. solve_decision. Defined.

#[global] Instance DataType_eq_dec : EqDecision DataType.
Proof. solve_decision. Defined.

Definition type_of (v : Value) : DataType :=
  match v with
  | VString _ => StringType
  | VInt _ => IntegerType
  | VLong _ => LongType
  | VBoolean _ => BooleanType
  | VTimestamp _ => TimestampType
  | VDate _ => DateType
  end.

(** A row maps the column names to its cells; a null cell has no entry. *)
Abbreviation Row := (gmap string Value).

Record DataFrame := {
  schema : list (string * DataType);
  rows : list Row
}.

(** [df.columns]. *)
Definition columns (df : DataFrame) : list string := (schema df).*1.

(** The cells of a frame have the types its schema declares. *)
Definition well_typed (df : DataFrame) : Prop :=
  ∀ r c v, r ∈ rows df → r !! c = Some v → (c, type_of v) ∈ schema df.

(** [df.count()]. *)
Definition count (df : DataFrame) : nat := length (rows df).

(** *** The order of a sort *)

(** Strings compare byte by byte, a prefix before its extensions. *)
Fixpoint string_le (s1 s2 : string) : bool :=
  match s1, s2 with
  | EmptyString, _ => true
  | String _ _, EmptyString => false
  | String a1 t1, String a2 t2 =>
      let n1 := Ascii.nat_of_ascii a1 in
      let n2 := Ascii.nat_of_ascii a2 in
      if Nat.ltb n1 n2 then true
      else if Nat.ltb n2 n1 then false
      else string_le t1 t2
  end.

Definition type_rank (v : Value) : nat :=
  match v with
  | VString _ => 0 | VInt _ => 1 | VLong _ => 2
  | VBoolean _ => 3 | VTimestamp _ => 4 | VDate _ => 5
  end.

(** The order of the values of one column; a column holds one type, and
    values of two types are kept apart only to make the order total. *)
Definition value_le (a b : Value) : bool :=
  match a, b with
  | VString x, VString y => string_le x y
  | VInt x, VInt y => (x <=? y)%Z
  | VLong x, VLong y => (x <=? y)%Z
  | VBoolean x, VBoolean y => implb x y
  | VTimestamp x, VTimestamp y => (x <=? y)%Z
  | VDate x, VDate y => (x <=? y)%Z
  | _, _ => Nat.ltb (type_rank a) (type_rank b)
  end.

(** Cells: null is below every value, so that a descending sort puts the
    nulls last. *)
Definition cell_le (a b : option Value) : bool :=
  match a, b with
  | None, _ => true
  | Some _, None => false
  | Some x, Some y => value_le x y
  end.

(** [orderBy(F.desc(c))]: [r1] may stand before [r2]. *)
Definition desc (c : string) (r1 r2 : Row) : Prop :=
  cell_le (r2 !! c) (r1 !! c) = true.

#[global] Instance desc_dec c r1 r2 : Decision (desc c r1 r2).
Proof. unfold desc. apply _. Defined.

(** The sort of the rows of a group under [orderBy(F.desc(c))].  It has one
    key; the rows that tie on it stay in the order in which they came. *)
Fixpoint insert_desc (c : string) (r : Row) (sorted : list Row) : list Row :=
  match sorted with
  | [] => [r]
  | r' :: rest =>
      if decide (desc c r r') then r :: sorted else r' :: insert_desc c r rest
  end.

Definition sort_desc (c : string) (part : list Row) : list Row :=
  foldr (insert_desc c) [] part.

(** *** DataFrame operations *)

Definition set_cell (c : string) (v : option Value) (r : Row) : Row :=
  match v with
  | Some x => <[c := x]> r
  | None => delete c r
  end.

(** The schema after [withColumn(c, _)] of type [t]: a column of that name is
    replaced where it stands, a new one goes last.  Names are compared as
    they are written.  The engine compares them without regard to case; the
    two agree on frames whose names are written in lowercase
    ([plain_columns] below), and the properties of the cells that a stage
    leaves alone are stated for such frames. *)
Fixpoint set_field (c : string) (t : DataType) (s : list (string * DataType))
    : list (string * DataType) :=
  match s with
  | [] => [(c, t)]
  | (c', t') :: s' =>
      if decide (c' = c) then (c, t) :: s' else (c', t') :: set_field c t s'
  end.

(** [df.withColumn(c, e)] for an expression [e] of type [t] whose value on a
    row is [f]. *)
Definition withColumn (c : string) (t : DataType) (f : Row → option Value)
    (df : DataFrame) : DataFrame :=
  {| schema := set_field c t (schema df);
     rows := (λ r, set_cell c (f r) r) <$> rows df |}.

(** [df.drop(c)], with names compared as [set_field] compares them. *)
Definition drop_column (c : string) (df : DataFrame) : DataFrame :=
  {| schema := filter (λ f, f.1 ≠ c) (schema df);
     rows := delete c <$> rows df |}.

(** [df.filter(p)]. *)
Definition filter_rows (p : Row → bool) (df : DataFrame) : DataFrame :=
  {| schema := schema df; rows := filter (λ r, p r = true) (rows df) |}.

(** [df.na.drop(subset=[c])]. *)
Definition na_drop (c : string) (df : DataFrame) : DataFrame :=
  filter_rows (λ r, bool_decide (is_Some (r !! c))) df.

(** [F.trim]: the space characters (code 32) at both ends go, and nothing
    else. *)
Definition is_space32 (a : Ascii.ascii) : bool :=
  Ascii.eqb a (Ascii.ascii_of_nat 32).

Fixpoint ltrim (s : string) : string :=
  match s with
  | String a t => if is_space32 a then ltrim t else s
  | EmptyString => EmptyString
  end.

Fixpoint rtrim (s : string) : string :=
  match s with
  | String a t =>
      match rtrim t with
      | EmptyString => if is_space32 a then EmptyString else String a EmptyString
      | t' => String a t'
      end
  | EmptyString => EmptyString
  end.

Definition trim (s : string) : string := rtrim (ltrim s).

Definition trim_value (v : Value) : Value :=
  match v with
  | VString s => VString (trim s)
  | _ => v
  end.

(** *** Column names *)

(** A lowercase letter, a digit or an underscore. *)
Definition plain_char (a : Ascii.ascii) : bool :=
  let n := Ascii.nat_of_ascii a in
  (Nat.leb 97 n && Nat.leb n 122) || (Nat.leb 48 n && Nat.leb n 57)
  || Nat.eqb n 95.

Definition plain_name (c : string) : bool :=
  negb (String.eqb c "") && forallb plain_char (String.list_ascii_of_string c).

(** The column names are pairwise different, not empty and made of lowercase
    letters, digits and underscores.  On such a frame a name, however the
    engine resolves it (case ignored, dots and backticks read as syntax),
    denotes the column that is written the same, and no other. *)
Definition plain_columns (df : DataFrame) : bool :=
  bool_decide (NoDup (columns df)) && forallb plain_name (columns df).

Definition dot : Ascii.ascii := Ascii.ascii_of_nat 46.
Definition backtick : Ascii.ascii := Ascii.ascii_of_nat 96.

(** [F.col(c)] reads [c] as a reference, not as a bare name: a dot leads
    into a nested column, backticks quote, and ["*"] stands for every
    column.  [plain_ref c] holds when [c] has none of these, so that the
    reference is to the column called [c]. *)
Definition plain_ref (c : string) : bool :=
  negb (String.eqb c "*") &&
  forallb (λ a, negb (Ascii.eqb a dot || Ascii.eqb a backtick))
    (String.list_ascii_of_string c).

(** The type of a column, when the frame has it. *)
Fixpoint lookup_field (c : string) (s : list (string * DataType))
    : option DataType :=
  match s with
  | [] => None
  | (c', t) :: s' => if decide (c' = c) then Some t else lookup_field c s'
  end.

(** What the job can die of. *)
Inductive exn :=
| AnalysisException (msg : string)
| WriteError (msg : string).

(** A calendar date, as the engine's cast to [DateType] yields it. *)
Record date := { d_year : Z; d_month : Z; d_day : Z }.

(** Standard output, and the datasets handed to the Glue writer with their
    path, partition keys and compression. *)
Record sink := {
  snk_path : string;
  snk_partitionKeys : list string;
  snk_format : string;
  snk_compression : string;
  snk_frame : DataFrame
}.

Record world := {
  stdout : list string;
  written : list sink
}.

Abbreviation M := (Py.M world exn).

Definition print (line : string) : M () :=
  λ w, ({| stdout := stdout w ++ [line]; written := written w |}, inr ()).

Section Job.

(** The engine and the surroundings of a run:
    - [pyspark_3_3]: whether the PySpark of the run is 3.3 or later (Glue 4.0
      and later), which decides how [str] prints a column type;
    - [exchange]: the order in which the shuffle of a window hands the rows
      over; the engine promises no more than that no row is lost or added;
    - [cast_date]: the implicit cast of a cell to [DateType], null when the
      cell is not a date;
    - [current_timestamp], [input_file_name]: what the two functions of that
      name evaluate to;
    - [args]: the resolved job arguments; [now]: [datetime.utcnow()];
    - [catalog]: the table read from the Data Catalog;
    - [glue_write]: the writer's answer ([None]: written). *)
Variable pyspark_3_3 : bool.
Variable exchange : list Row → list Row.
Hypothesis exchange_perm : ∀ l, exchange l ≡ₚ l.
Variable cast_date : Value → option date.
Variable current_timestamp : Z.
Variable input_file_name : Row → string.
Variable args : gmap string string.
Variable now : datetime.
Variable catalog : DataFrame.
Variable glue_write : sink → option exn.

Set Default Proof Using "Type".

(** [set_solver], kept from drawing the surroundings of the run into a
    proof that does not speak of them. *)
Ltac sets :=
  try clear exchange_perm; try clear glue_write; try clear catalog;
  try clear pyspark_3_3;
  try clear now; try clear args; try clear input_file_name;
  try clear current_timestamp; try clear cast_date;
  set_solver.

Definition SOURCE_DATABASE : string := default "" (args !! "source_database").
Definition SOURCE_TABLE : string := default "" (args !! "source_table").
Definition TARGET_BUCKET : string := default "" (args !! "target_bucket").
Definition TARGET_PREFIX : string := default "" (args !! "target_prefix").

Definition read_raw_data : M DataFrame :=
  let* _ := print ("Reading from " +:+ SOURCE_DATABASE +:+ "." +:+ SOURCE_TABLE) in
  ret catalog.

(** [Window.partitionBy(c)]: the rows, in the order of the exchange, grouped
    by their cell in [c]; the null cells make one group. *)
Definition partitionBy (c : string) (rs : list Row) : list (list Row) :=
  (λ k, filter (λ r, r !! c = k) rs) <$> remove_dups ((λ r, (r !! c)) <$> rs).

(** [F.row_number().over(Window.partitionBy(pc).orderBy(F.desc(oc)))]: every
    row with its rank, from 1, in the sort of its group.  The sort has one
    key: where the rows that tie on it come to stand follows from the order
    of the exchange, which is any order. *)
Definition row_number_over (pc oc : string) (rs : list Row) : list (Row * nat) :=
  part ← partitionBy pc (exchange rs);
  imap (λ i r, (r, S i)) (sort_desc oc part).

Definition with_row_number (c pc oc : string) (df : DataFrame) : DataFrame :=
  {| schema := set_field c IntegerType (schema df);
     rows := (λ rn, <[c := VInt (Z.of_nat rn.2)]> rn.1)
             <$> row_number_over pc oc (rows df) |}.

Definition dedup_applies (df : DataFrame) : bool :=
  bool_decide ("id" ∈ columns df) && bool_decide ("timestamp" ∈ columns df).

(** First block of [clean_data]: drop duplicates on the primary key, keeping
    the first row of each key in descending timestamp order. *)
Definition dedupe (df : DataFrame) : DataFrame :=
  if dedup_applies df
  then drop_column "row_num"
         (filter_rows (λ r, bool_decide (r !! "row_num" = Some (VInt 1)))
            (with_row_number "row_num" "id" "timestamp" df))
  else df.

(** [[f.name for f in df.schema.fields if str(f.dataType) == 'StringType']]:
    the string columns up to PySpark 3.2, and no column from PySpark 3.3 on,
    where a string column prints as ['StringType()']. *)
Definition string_cols (df : DataFrame) : list string :=
  (filter (λ f, dataType_str pyspark_3_3 f.2 = "StringType") (schema df)).*1.

(** [cleaned.withColumn(c, F.trim(F.col(c)))]: the analysis fails when the
    reference [c] does not resolve.  A plain reference resolves when
    [cleaned] has a column [c].  A reference with a dot never does: the
    frames of the job are flat, and the path leads nowhere.  A quoted
    reference denotes the name between the backticks, not [c]; the model
    does not follow it there and lets the analysis fail, which it does
    unless the frame happens to have that other column. *)
Definition trim_column (c : string) (cleaned : DataFrame) : exn + DataFrame :=
  if plain_ref c && bool_decide (c ∈ columns cleaned)
  then inr (withColumn c StringType (λ r, trim_value <$> r !! c) cleaned)
  else inl (AnalysisException ("cannot resolve '" +:+ c +:+ "'")).

Fixpoint trim_columns (cols : list string) (cleaned : DataFrame)
    : exn + DataFrame :=
  match cols with
  | [] => inr cleaned
  | c :: cols' =>
      match trim_column c cleaned with
      | inr cleaned' => trim_columns cols' cleaned'
      | inl e => inl e
      end
  end.

(** Third block of [clean_data]: the rows with a null [id] go, when the
    input frame has the column. *)
Definition drop_null_ids (df cleaned : DataFrame) : DataFrame :=
  if bool_decide ("id" ∈ columns df) then na_drop "id" cleaned else cleaned.

Definition clean_data (df : DataFrame) : M DataFrame :=
  let* _ := print "Applying data cleaning..." in
  let cleaned := dedupe df in
  match trim_columns (string_cols df) cleaned with
  | inr cleaned' => ret (drop_null_ids df cleaned')
  | inl e => raise e
  end.

Definition job_run_id : string := default "local" (args !! "JOB_RUN_ID").

Definition add_audit_columns (df : DataFrame) : M DataFrame :=
  let* _ := print "Adding audit columns..." in
  ret (withColumn "_job_run_id" StringType (λ _, Some (VString job_run_id))
         (withColumn "_source_file" StringType
            (λ r, Some (VString (input_file_name r)))
            (withColumn "_processed_at" TimestampType
               (λ _, Some (VTimestamp current_timestamp)) df))).

(** [F.year(F.col(c))] and its like: the cell cast to a date, then the field;
    null when the cell is null or the cast gives null. *)
Definition date_field (f : date → Z) (c : string) (r : Row) : option Value :=
  d ← (r !! c) ≫= cast_date; Some (VInt (f d)).

(** The types the analysis lets [F.year] take. *)
Definition date_castable (t : DataType) : bool :=
  match t with
  | StringType | DateType | TimestampType => true
  | _ => false
  end.

Definition add_partitions (df : DataFrame) : M DataFrame :=
  let* _ := print "Adding partition columns..." in
  if bool_decide ("timestamp" ∈ columns df)
  then
    match lookup_field "timestamp" (schema df) with
    | Some t =>
        if date_castable t
        then ret (withColumn "day" IntegerType (date_field d_day "timestamp")
                    (withColumn "month" IntegerType (date_field d_month "timestamp")
                       (withColumn "year" IntegerType (date_field d_year "timestamp")
                          df)))
        else raise (AnalysisException
                      "cannot resolve 'year(timestamp)' due to data type mismatch")
    | None => raise (AnalysisException "cannot resolve 'timestamp'")
    end
  else
    ret (withColumn "day" IntegerType (λ _, Some (VInt (Z.of_nat (day now))))
           (withColumn "month" IntegerType (λ _, Some (VInt (Z.of_nat (month now))))
              (withColumn "year" IntegerType
                 (λ _, Some (VInt (Z.of_nat (year now)))) df))).

Definition output_path : string :=
  "s3://" +:+ TARGET_BUCKET +:+ "/" +:+ TARGET_PREFIX.

Definition write_processed_data (df : DataFrame) : M nat :=
  let* _ := print ("Writing to " +:+ output_path) in
  let out := {| snk_path := output_path;
                snk_partitionKeys := ["year"; "month"; "day"];
                snk_format := "glueparquet";
                snk_compression := "snappy";
                snk_frame := df |} in
  let* _ := (λ w, match glue_write out with
                  | None => ({| stdout := stdout w;
                                written := written w ++ [out] |}, inr ())
                  | Some e => (w, inl e)
                  end) in
  ret (count df).

Definition update_catalog (row_count : nat) : M () :=
  let* _ := print "Updating Data Catalog..." in
  print ("Processed " +:+ str_int row_count +:+ " records").

Definition rule : string := String.concat "" (replicate 60 "=").

Definition main : M () :=
  let* _ := print rule in
  let* _ := print "Starting Raw to Processed ETL" in
  let* _ := print ("Source: " +:+ SOURCE_DATABASE +:+ "." +:+ SOURCE_TABLE) in
  let* _ := print ("Target: s3://" +:+ TARGET_BUCKET +:+ "/" +:+ TARGET_PREFIX) in
  let* _ := print rule in
  let* raw_df := read_raw_data in
  let* _ := print ("Read " +:+ str_int (count raw_df) +:+ " raw records") in
  let* cleaned_df := clean_data raw_df in
  let* with_audit := add_audit_columns cleaned_df in
  let* with_partitions := add_partitions with_audit in
  let* row_count := write_processed_data with_partitions in
  let* _ := update_catalog row_count in
  let* _ := print rule in
  let* _ := print "ETL Complete!" in
  print rule.

(** *** The sort order is a total preorder *)

Lemma string_le_total s1 s2 : string_le s1 s2 = true ∨ string_le s2 s1 = true.
Proof.
  revert s2. induction s1 as [|a1 t1 IH]; intros [|a2 t2]; simpl; auto.
  destruct (Nat.ltb_spec (Ascii.nat_of_ascii a1) (Ascii.nat_of_ascii a2));
    destruct (Nat.ltb_spec (Ascii.nat_of_ascii a2) (Ascii.nat_of_ascii a1));
    auto; lia.
Qed.

Lemma string_le_trans s1 s2 s3 :
  string_le s1 s2 = true → string_le s2 s3 = true → string_le s1 s3 = true.
Proof.
  revert s2 s3.
  induction s1 as [|a1 t1 IH]; intros [|a2 t2] [|a3 t3]; simpl; try done.
  destruct (Nat.ltb_spec (Ascii.nat_of_ascii a1) (Ascii.nat_of_ascii a2));
    destruct (Nat.ltb_spec (Ascii.nat_of_ascii a2) (Ascii.nat_of_ascii a1));
    destruct (Nat.ltb_spec (Ascii.nat_of_ascii a2) (Ascii.nat_of_ascii a3));
    destruct (Nat.ltb_spec (Ascii.nat_of_ascii a3) (Ascii.nat_of_ascii a2));
    destruct (Nat.ltb_spec (Ascii.nat_of_ascii a1) (Ascii.nat_of_ascii a3));
    destruct (Nat.ltb_spec (Ascii.nat_of_ascii a3) (Ascii.nat_of_ascii a1));
    try done; try lia.
  apply IH.
Qed.

Lemma value_le_total a b : value_le a b = true ∨ value_le b a = true.
Proof.
  destruct a as [x|x|x|x|x|x], b as [y|y|y|y|y|y]; simpl; auto;
    try apply string_le_total;
    try (destruct (Z.leb_spec x y), (Z.leb_spec y x); auto; lia).
  destruct x, y; auto.
Qed.

Lemma value_le_trans a b c :
  value_le a b = true → value_le b c = true → value_le a c = true.
Proof.
  destruct a as [x|x|x|x|x|x], b as [y|y|y|y|y|y], c as [z|z|z|z|z|z];
    simpl; try done;
    try apply string_le_trans;
    try (rewrite !Z.leb_le; lia).
  destruct x, y, z; done.
Qed.

Lemma cell_le_total a b : cell_le a b = true ∨ cell_le b a = true.
Proof. destruct a, b; simpl; auto using value_le_total. Qed.

Lemma cell_le_trans a b c :
  cell_le a b = true → cell_le b c = true → cell_le a c = true.
Proof. destruct a, b, c; simpl; try done. apply value_le_trans. Qed.

#[global] Instance desc_total c : Total (desc c).
Proof. intros r1 r2. unfold desc. apply cell_le_total. Qed.

#[global] Instance desc_trans c : Transitive (desc c).
Proof. intros r1 r2 r3 H12 H23. unfold desc in *. by eapply cell_le_trans. Qed.

(** The first row of a sorted group is a row of the group that no row of the
    group beats. *)
Lemma sort_desc_head c (part : list Row) r :
  head (sort_desc c part) = Some r →
  r ∈ part ∧ ∀ r', r' ∈ part → cell_le (r' !! c) (r !! c) = true.
Proof.
  revert r. induction part as [|r0 part IH]; intros r; [done|].
  simpl. destruct (sort_desc c part) as [|y l] eqn:Hsort; simpl.
  - intros [= <-]. destruct part as [|r1 part].
    + split; [by left|]. intros r' ->%list_elem_of_singleton.
      by destruct (cell_le_total (r0 !! c) (r0 !! c)).
    + exfalso. simpl in Hsort.
      destruct (sort_desc c part) as [|z l']; simpl in Hsort; [done|].
      by case_decide.
  - destruct (IH y eq_refl) as [Hy Hmax].
    case_decide as Hd; intros [= <-].
    + split; [by left|]. intros r' [->|Hr']%elem_of_cons.
      * by destruct (cell_le_total (r0 !! c) (r0 !! c)).
      * eapply cell_le_trans; [by apply Hmax|done].
    + split; [by right|]. intros r' [->|Hr']%elem_of_cons; [|by apply Hmax].
      by destruct (cell_le_total (r0 !! c) (y !! c)).
Qed.

Lemma sort_desc_head_is_Some c (part : list Row) :
  part ≠ [] → is_Some (head (sort_desc c part)).
Proof.
  destruct part as [|r0 part]; [done|]. intros _. simpl.
  destruct (sort_desc c part) as [|y l]; simpl; [by eexists|].
  case_decide; by eexists.
Qed.


(** *** What the window keeps *)

(** The row a group is left with: the first of its sort, without the rank
    column. *)
Definition first_of_group (part : list Row) : option Row :=
  delete "row_num" <$> head (sort_desc "timestamp" part).

Lemma rank_filter_tail (f : nat → Row → Row * nat) (l : list Row) :
  (∀ i r, (f i r).2 ≠ 1%nat) →
  filter (λ r : Row, bool_decide (r !! "row_num" = Some (VInt 1)) = true)
    ((λ rn : Row * nat, <["row_num" := VInt (Z.of_nat rn.2)]> rn.1) <$> imap f l)
  = [].
Proof.
  revert f. induction l as [|r l IH]; intros f Hf; [done|].
  rewrite imap_cons, fmap_cons, filter_cons.
  rewrite decide_False.
  - apply IH. intros i r'. apply Hf.
  - rewrite bool_decide_eq_true, lookup_insert_eq. intros [= H1].
    apply (Hf 0%nat r). lia.
Qed.

Lemma rank_filter_group (part : list Row) :
  delete "row_num" <$>
    filter (λ r : Row, bool_decide (r !! "row_num" = Some (VInt 1)) = true)
      ((λ rn : Row * nat, <["row_num" := VInt (Z.of_nat rn.2)]> rn.1)
         <$> imap (λ i r, (r, S i)) (sort_desc "timestamp" part))
  = option_list (first_of_group part).
Proof.
  unfold first_of_group.
  destruct (sort_desc "timestamp" part) as [|r l]; [done|].
  rewrite imap_cons, fmap_cons, filter_cons. simpl.
  rewrite decide_True by (by rewrite bool_decide_eq_true, lookup_insert_eq).
  rewrite rank_filter_tail by (intros i r'; simpl; lia).
  simpl. by rewrite delete_insert_eq.
Qed.

Lemma dedupe_rows df :
  dedup_applies df = true →
  rows (dedupe df) =
    omap first_of_group (partitionBy "id" (exchange (rows df))).
Proof.
  intros Happ. unfold dedupe. rewrite Happ. simpl.
  unfold row_number_over.
  induction (partitionBy "id" (exchange (rows df))) as [|part parts IH]; [done|].
  csimpl. rewrite fmap_app, filter_app, fmap_app, IH, rank_filter_group.
  by destruct (first_of_group part).
Qed.

(** The rows that [dedupe] keeps, against the distinct keys of the input:
    one row per key, which is a row of the input with that key (less the rank
    column) whose timestamp no row of that key exceeds. *)
Definition best_of (df : DataFrame) (k : option Value) (s : Row) : Prop :=
  ∃ r, r ∈ rows df ∧ r !! "id" = k ∧ s = delete "row_num" r ∧
       ∀ r', r' ∈ rows df → r' !! "id" = k →
             cell_le (r' !! "timestamp") (r !! "timestamp") = true.

Lemma dedupe_spec df :
  dedup_applies df = true →
  Forall2 (best_of df) (remove_dups ((λ r : Row, r !! "id") <$> exchange (rows df)))
    (rows (dedupe df)).
Proof using exchange_perm.
  intros Happ. rewrite dedupe_rows by done. unfold partitionBy.
  set (rs := exchange (rows df)).
  assert (∀ k, k ∈ remove_dups ((λ r : Row, r !! "id") <$> rs) →
               ∃ r, r ∈ rs ∧ r !! "id" = k) as Hks.
  { intros k Hk. apply elem_of_remove_dups, list_elem_of_fmap in Hk.
    destruct Hk as (r & -> & Hr). eauto. }
  induction (remove_dups ((λ r : Row, r !! "id") <$> rs)) as [|k ks IH];
    [constructor|].
  csimpl.
  destruct (Hks k) as (r0 & Hr0 & Hk0); [sets|].
  assert (r0 ∈ filter (λ r : Row, r !! "id" = k) rs) as Hin
    by (by apply list_elem_of_filter).
  destruct (sort_desc_head_is_Some "timestamp"
              (filter (λ r : Row, r !! "id" = k) rs)) as [r Hr];
    [by intros Hnil; rewrite Hnil in Hin; apply not_elem_of_nil in Hin|].
  unfold first_of_group at 1. rewrite Hr. simpl.
  constructor; [|apply IH; intros; apply Hks; sets].
  apply sort_desc_head in Hr as [Hr Hmax].
  apply list_elem_of_filter in Hr as [Hrk Hr].
  exists r. split; [by rewrite <- (exchange_perm (rows df))|].
  split; [done|]. split; [done|].
  intros r' Hr' Hk'. apply Hmax, list_elem_of_filter. split; [done|].
  subst rs. by rewrite (exchange_perm (rows df)).
Qed.

Lemma best_of_key df k s : best_of df k s → s !! "id" = k.
Proof. intros (r & _ & <- & -> & _). by rewrite lookup_delete_ne. Qed.

Lemma dedupe_keys df :
  dedup_applies df = true →
  (λ s : Row, s !! "id") <$> rows (dedupe df) =
    remove_dups ((λ r : Row, r !! "id") <$> exchange (rows df)).
Proof using exchange_perm.
  intros Happ. pose proof (dedupe_spec df Happ) as Hspec.
  induction Hspec as [|k s ks ss Hks _ IH]; [done|].
  csimpl. by rewrite IH, (best_of_key _ _ _ Hks).
Qed.








(** *** What [F.trim] does to a string *)


Definition starts_with_space (s : string) : bool :=
  match s with
  | EmptyString => false
  | String a _ => is_space32 a
  end.

Fixpoint ends_with_space (s : string) : bool :=
  match s with
  | EmptyString => false
  | String a t =>
      match t with
      | EmptyString => is_space32 a
      | String _ _ => ends_with_space t
      end
  end.



Lemma ltrim_starts s : starts_with_space (ltrim s) = false.
Proof.
  induction s as [|c t IH]; [done|]. simpl.
  destruct (is_space32 c) eqn:Hc; [done|]. simpl. done.
Qed.

Lemma ltrim_fixed s : starts_with_space s = false → ltrim s = s.
Proof. destruct s as [|c t]; [done|]. simpl. by intros ->. Qed.


Lemma rtrim_ends s : ends_with_space (rtrim s) = false.
Proof.
  induction s as [|c t IH]; [done|]. simpl.
  destruct (rtrim t) as [|c' t'] eqn:Hr.
  - by destruct (is_space32 c) eqn:Hc; simpl; try rewrite Hc.
  - done.
Qed.

Lemma rtrim_starts s :
  starts_with_space s = false → starts_with_space (rtrim s) = false.
Proof.
  destruct s as [|c t]; [done|]. simpl. intros Hc.
  destruct (rtrim t); [by rewrite Hc|done].
Qed.

Lemma rtrim_fixed s : ends_with_space s = false → rtrim s = s.
Proof.
  induction s as [|c t IH]; [done|]. simpl.
  destruct t as [|c' t']; [by intros ->|].
  intros Ht. rewrite (IH Ht). done.
Qed.


Lemma trim_clean s :
  starts_with_space (trim s) = false ∧ ends_with_space (trim s) = false.
Proof.
  unfold trim. split; [apply rtrim_starts, ltrim_starts|apply rtrim_ends].
Qed.

Lemma trim_idemp s : trim (trim s) = trim s.
Proof.
  destruct (trim_clean s) as [Hs He].
  unfold trim at 1. by rewrite (ltrim_fixed _ Hs), (rtrim_fixed _ He).
Qed.

Lemma trim_value_idemp v : trim_value (trim_value v) = trim_value v.
Proof. destruct v; simpl; try done. by rewrite trim_idemp. Qed.

(** *** The trimming loop *)

(** A row after the loop over [cols]. *)
Definition trim_row (cols : list string) (r : Row) : Row :=
  foldl (λ r c, set_cell c (trim_value <$> r !! c) r) r cols.

Lemma lookup_set_cell c v (r : Row) c' :
  set_cell c v r !! c' = if decide (c = c') then v else r !! c'.
Proof.
  unfold set_cell. destruct v.
  - by rewrite lookup_insert.
  - by rewrite lookup_delete.
Qed.

Lemma lookup_trim_row cols (r : Row) c :
  trim_row cols r !! c =
    if decide (c ∈ cols) then trim_value <$> r !! c else r !! c.
Proof.
  unfold trim_row. revert r. induction cols as [|c0 cols IH]; intros r; [done|].
  simpl. rewrite IH, !lookup_set_cell.
  destruct (decide (c0 = c)) as [->|Hne].
  - destruct (decide (c ∈ c :: cols)) as [_|Hn]; [|sets].
    destruct (decide (c ∈ cols)); [|done].
    destruct (r !! c); simpl; [|done]. by rewrite trim_value_idemp.
  - destruct (decide (c ∈ cols)) as [Hin|Hin].
    + by rewrite decide_True by (apply elem_of_cons; by right).
    + rewrite decide_False; [done|].
      by intros [?|?]%elem_of_cons.
Qed.

Lemma set_field_columns c t s :
  c ∈ s.*1 → (set_field c t s).*1 = s.*1.
Proof.
  induction s as [|[c' t'] s IH]; [by intros ?%not_elem_of_nil|].
  simpl. case_decide; [by subst|].
  intros [?|Hin]%elem_of_cons; [done|]. csimpl. by rewrite IH.
Qed.

(** A plain name is a plain reference. *)
Lemma plain_char_ref a :
  plain_char a = true → negb (Ascii.eqb a dot || Ascii.eqb a backtick) = true.
Proof. destruct a as [[] [] [] [] [] [] [] []]; by vm_compute. Qed.

Lemma plain_name_ref c : plain_name c = true → plain_ref c = true.
Proof.
  unfold plain_name, plain_ref. intros [_ Hc]%andb_true_iff.
  apply andb_true_iff. split.
  - destruct c as [|a c]; [done|]. simpl in Hc.
    apply andb_true_iff in Hc as [Ha _].
    destruct c as [|b c]; [|by destruct a as [[] [] [] [] [] [] [] []]].
    destruct a as [[] [] [] [] [] [] [] []]; by vm_compute in Ha |- *.
  - induction c as [|a c IH]; [done|]. simpl in *.
    apply andb_true_iff in Hc as [Ha Hc].
    by rewrite (plain_char_ref a Ha), IH.
Qed.

Lemma plain_columns_refs df c :
  plain_columns df = true → c ∈ columns df → plain_ref c = true.
Proof.
  unfold plain_columns. intros [_ Hall]%andb_true_iff Hc.
  rewrite forallb_forall in Hall. apply plain_name_ref, Hall.
  by apply list_elem_of_In.
Qed.

Lemma trim_column_ok c cleaned :
  plain_ref c = true → c ∈ columns cleaned →
  ∃ out, trim_column c cleaned = inr out ∧
         columns out = columns cleaned ∧
         rows out = (λ r, set_cell c (trim_value <$> r !! c) r) <$> rows cleaned.
Proof.
  intros Hp Hc. unfold trim_column. rewrite Hp, bool_decide_eq_true_2 by done.
  eexists. split; [done|]. split; [|done].
  by apply set_field_columns.
Qed.

(** A column that goes through the trim was a column of the frame, and the
    frame keeps its columns. *)
Lemma trim_column_inv c cleaned out :
  trim_column c cleaned = inr out →
  plain_ref c = true ∧ c ∈ columns cleaned ∧ columns out = columns cleaned.
Proof.
  unfold trim_column.
  destruct (plain_ref c) eqn:Hp; [|done]. case_bool_decide as Hc; [|done].
  simpl. intros [= <-]. split; [done|]. split; [done|].
  by apply set_field_columns.
Qed.

Lemma trim_columns_ok cols cleaned :
  Forall (λ c, plain_ref c = true) cols →
  cols ⊆ columns cleaned →
  ∃ out, trim_columns cols cleaned = inr out ∧
         columns out = columns cleaned ∧
         rows out = trim_row cols <$> rows cleaned.
Proof.
  revert cleaned. induction cols as [|c cols IH]; intros cleaned Hplain Hsub.
  - exists cleaned. split; [done|]. split; [done|].
    unfold trim_row. simpl. by rewrite list_fmap_id.
  - apply Forall_cons in Hplain as [Hc Hplain].
    destruct (trim_column_ok c cleaned) as (mid & Hmid & Hcols & Hrows);
      [done|sets|].
    destruct (IH mid) as (out & Hout & Hcols' & Hrows');
      [done|rewrite Hcols; sets|].
    exists out. simpl. rewrite Hmid. split; [done|].
    split; [congruence|].
    rewrite Hrows', Hrows, <- list_fmap_compose. done.
Qed.

(** The loop can only fail at analysis, and it does when one of its columns
    is not in the frame. *)
Lemma trim_columns_error cols cleaned e :
  trim_columns cols cleaned = inl e → ∃ msg, e = AnalysisException msg.
Proof.
  revert cleaned. induction cols as [|c cols IH]; intros cleaned; [done|].
  simpl. destruct (trim_column c cleaned) as [e'|mid] eqn:Hmid; [|by apply IH].
  intros [= <-]. unfold trim_column in Hmid.
  destruct (plain_ref c && bool_decide (c ∈ columns cleaned)); [done|].
  simplify_eq. by eexists.
Qed.

Lemma trim_columns_missing cols c cleaned :
  c ∈ cols → c ∉ columns cleaned →
  ∃ e, trim_columns cols cleaned = inl e.
Proof.
  revert cleaned. induction cols as [|c0 cols IH]; intros cleaned Hin Hc.
  { by apply not_elem_of_nil in Hin. }
  simpl. destruct (trim_column c0 cleaned) as [e|mid] eqn:Hmid; [by eexists|].
  apply trim_column_inv in Hmid as (_ & Hc0 & Hcols).
  apply elem_of_cons in Hin as [->|Hin]; [done|].
  apply IH; [done|by rewrite Hcols].
Qed.

(** What the test on [str(f.dataType)] selects: the string columns when the
    type prints as its class name, and nothing when it prints with
    parentheses. *)
Lemma dataType_str_spec t :
  dataType_str pyspark_3_3 t = "StringType" ↔
  pyspark_3_3 = false ∧ t = StringType.
Proof. destruct pyspark_3_3, t; split; (done || by intros [??]). Qed.

Lemma string_cols_spec df c :
  c ∈ string_cols df ↔ pyspark_3_3 = false ∧ (c, StringType) ∈ schema df.
Proof.
  unfold string_cols. rewrite list_elem_of_fmap. split.
  - intros ([c' t] & -> & [Ht Hin]%list_elem_of_filter). simpl in *.
    apply dataType_str_spec in Ht as [-> ->]. done.
  - intros [Hv Hin]. exists (c, StringType). split; [done|].
    apply list_elem_of_filter. split; [|done]. by apply dataType_str_spec.
Qed.

Lemma string_cols_parens df : pyspark_3_3 = true → string_cols df = [].
Proof.
  intros Hv. destruct (string_cols df) as [|c l] eqn:Hl; [done|].
  assert (c ∈ string_cols df) as Hc by (rewrite Hl; by left).
  apply string_cols_spec in Hc as [Hc _]. congruence.
Qed.

Lemma string_cols_columns df : string_cols df ⊆ columns df.
Proof.
  intros c [_ Hc]%string_cols_spec. unfold columns.
  apply list_elem_of_fmap. by exists (c, StringType).
Qed.

Lemma filter_fields_columns c (s : list (string * DataType)) :
  (filter (λ f : string * DataType, f.1 ≠ c) s).*1
  = filter (λ c', c' ≠ c) s.*1.
Proof.
  induction s as [|[c' t'] s IH]; [done|].
  csimpl. rewrite !filter_cons. simpl.
  destruct (decide (c' ≠ c)); csimpl; by rewrite IH.
Qed.

Lemma drop_set_field_columns c t s :
  (filter (λ f : string * DataType, f.1 ≠ c) (set_field c t s)).*1
  = filter (λ c', c' ≠ c) s.*1.
Proof.
  induction s as [|[c' t'] s IH]; simpl.
  - rewrite filter_cons. simpl. by destruct (decide (c ≠ c)).
  - case_decide as Heq.
    + subst. rewrite !filter_cons. simpl.
      destruct (decide (c ≠ c)); [done|]. apply filter_fields_columns.
    + rewrite !filter_cons. simpl.
      destruct (decide (c' ≠ c)); [|done]. csimpl. by rewrite IH.
Qed.

Lemma dedupe_columns df :
  columns (dedupe df) =
    if dedup_applies df then filter (λ c, c ≠ "row_num") (columns df)
    else columns df.
Proof.
  unfold dedupe. destruct (dedup_applies df); [|done].
  unfold columns. simpl. apply drop_set_field_columns.
Qed.

(** *** [clean_data] as a whole *)

(** The frames on which the cleaning goes through: the column names are
    plain, so that every reference of the cleaning denotes the column of
    that name; and the rank column is not in the way: when the window runs,
    a column called [row_num] is gone by the time the loop would trim it,
    so it must not be among the columns of the loop. *)
Definition clean_ok (df : DataFrame) : Prop :=
  plain_columns df = true ∧
  (dedup_applies df = true → "row_num" ∉ string_cols df).

Definition trimmed_rows (df : DataFrame) : list Row :=
  trim_row (string_cols df) <$> rows (dedupe df).

Definition cleaned_rows (df : DataFrame) : list Row :=
  if bool_decide ("id" ∈ columns df)
  then filter (λ r : Row, is_Some (r !! "id")) (trimmed_rows df)
  else trimmed_rows df.

Definition printed (line : string) (w : world) : world :=
  {| stdout := stdout w ++ [line]; written := written w |}.

Lemma string_cols_dedupe df :
  clean_ok df → string_cols df ⊆ columns (dedupe df).
Proof.
  intros [_ Hok] c Hc. rewrite dedupe_columns.
  destruct (dedup_applies df) eqn:Happ; [|by apply string_cols_columns].
  apply list_elem_of_filter. split; [|by apply string_cols_columns].
  intros ->. by apply Hok.
Qed.

Lemma string_cols_plain df :
  clean_ok df → Forall (λ c, plain_ref c = true) (string_cols df).
Proof.
  intros [Hplain _]. apply Forall_forall. intros c Hc.
  apply (plain_columns_refs df); [done|]. by apply string_cols_columns.
Qed.

Lemma clean_data_ok df w :
  clean_ok df →
  ∃ out, clean_data df w = (printed "Applying data cleaning..." w, inr out) ∧
         rows out = cleaned_rows df ∧
         columns out = columns (dedupe df).
Proof.
  intros Hok.
  destruct (trim_columns_ok (string_cols df) (dedupe df))
    as (mid & Hmid & Hcols & Hrows);
    [by apply string_cols_plain|by apply string_cols_dedupe|].
  exists (drop_null_ids df mid).
  unfold clean_data, print, bind, ret. rewrite Hmid. split; [done|].
  unfold drop_null_ids, cleaned_rows, trimmed_rows.
  case_bool_decide; [|done]. simpl. rewrite Hrows. split; [|done].
  apply list_filter_iff. intros r. by rewrite bool_decide_eq_true.
Qed.

(** *** How many rows are left *)

Lemma dedupe_no_key df : "id" ∉ columns df → dedupe df = df.
Proof.
  intros Hid. unfold dedupe, dedup_applies.
  by rewrite (bool_decide_eq_false_2 _ Hid).
Qed.

Lemma dedupe_no_recency df : "timestamp" ∉ columns df → dedupe df = df.
Proof.
  intros Hts. unfold dedupe, dedup_applies.
  by rewrite (bool_decide_eq_false_2 _ Hts), andb_false_r.
Qed.

Lemma length_filter_fmap {A B} (P : B → Prop) (Q : A → Prop)
    `{∀ x, Decision (P x)} `{∀ x, Decision (Q x)} (f : A → B) (l : list A) :
  (∀ x, P (f x) ↔ Q x) →
  length (filter P (f <$> l)) = length (filter Q l).
Proof.
  intros Hpq. induction l as [|x l IH]; [done|].
  csimpl. rewrite !filter_cons.
  destruct (decide (P (f x))) as [Hp|Hp], (decide (Q x)) as [Hq|Hq];
    simpl; try by rewrite IH.
  - by apply Hpq in Hp.
  - by apply Hpq in Hq.
Qed.

Lemma remove_dups_Permutation {A} `{EqDecision A} (l l' : list A) :
  l ≡ₚ l' → remove_dups l ≡ₚ remove_dups l'.
Proof.
  intros Hp. apply NoDup_Permutation; [apply NoDup_remove_dups..|].
  intros x. by rewrite !elem_of_remove_dups, Hp.
Qed.

Lemma remove_dups_is_Some {A} `{EqDecision A} (l : list (option A)) :
  filter is_Some (remove_dups l) ≡ₚ Some <$> remove_dups (omap id l).
Proof.
  apply NoDup_Permutation.
  - apply NoDup_filter, NoDup_remove_dups.
  - apply NoDup_fmap_2; [apply _|apply NoDup_remove_dups].
  - intros x. rewrite list_elem_of_filter, elem_of_remove_dups, list_elem_of_fmap.
    split.
    + intros [[v ->] Hin]. exists v. split; [done|].
      apply elem_of_remove_dups, list_elem_of_omap. by exists (Some v).
    + intros (v & -> & Hin). split; [by eexists|].
      apply elem_of_remove_dups, list_elem_of_omap in Hin as (o & Ho & Hv).
      simpl in Hv. by subst.
Qed.

Lemma omap_id_fmap {A B} (f : A → option B) (l : list A) :
  omap id (f <$> l) = omap f l.
Proof.
  induction l as [|x l IH]; [done|]. csimpl. rewrite IH. by destruct (f x).
Qed.

(** The number of rows [clean_data] leaves, from the input alone: the
    distinct non-null ids when the window runs, the rows with an id when only
    the null filter runs, every row otherwise. *)
Definition surviving (df : DataFrame) : nat :=
  if bool_decide ("id" ∈ columns df)
  then if bool_decide ("timestamp" ∈ columns df)
       then length (remove_dups (omap (λ r : Row, r !! "id") (rows df)))
       else length (filter (λ r : Row, is_Some (r !! "id")) (rows df))
  else length (rows df).

Lemma trim_row_id_is_Some cols (r : Row) :
  is_Some (trim_row cols r !! "id") ↔ is_Some (r !! "id").
Proof.
  rewrite lookup_trim_row. case_decide; [|done]. by rewrite fmap_is_Some.
Qed.

Lemma cleaned_rows_length df : length (cleaned_rows df) = surviving df.
Proof using exchange_perm.
  unfold cleaned_rows, surviving, trimmed_rows.
  case_bool_decide as Hid; [|by rewrite length_fmap, dedupe_no_key].
  rewrite (length_filter_fmap _ (λ r : Row, is_Some (r !! "id")))
    by apply trim_row_id_is_Some.
  case_bool_decide as Hts; [|by rewrite dedupe_no_recency].
  assert (dedup_applies df = true) as Happ.
  { unfold dedup_applies. by rewrite !bool_decide_eq_true_2. }
  rewrite <- (length_filter_fmap is_Some _ (λ r : Row, r !! "id")) by done.
  rewrite dedupe_keys by done.
  rewrite remove_dups_is_Some, length_fmap, omap_id_fmap.
  apply Permutation_length, remove_dups_Permutation.
  by rewrite (exchange_perm (rows df)).
Qed.

(** *** The schema through the stages *)

Lemma set_field_elem c t s c' t' :
  (c', t') ∈ set_field c t s → (c', t') = (c, t) ∨ (c', t') ∈ s.
Proof.
  induction s as [|[c0 t0] s IH]; simpl.
  - intros ?%list_elem_of_singleton. by left.
  - case_decide.
    + intros [?|?]%elem_of_cons; [by left|]. right. by apply elem_of_cons; right.
    + intros [?|Hin]%elem_of_cons; [right; by apply elem_of_cons; left|].
      destruct (IH Hin); [by left|]. right. by apply elem_of_cons; right.
Qed.

Lemma lookup_field_elem c s t : lookup_field c s = Some t → (c, t) ∈ s.
Proof.
  induction s as [|[c0 t0] s IH]; [done|]. simpl. case_decide.
  - intros [= ->]. subst. by apply elem_of_cons; left.
  - intros Hl. apply elem_of_cons; right. by apply IH.
Qed.

Lemma lookup_field_is_Some c s : c ∈ s.*1 → is_Some (lookup_field c s).
Proof.
  induction s as [|[c0 t0] s IH]; [by intros ?%not_elem_of_nil|].
  simpl. case_decide; [by eexists|].
  intros [?|?]%elem_of_cons; [done|]. by apply IH.
Qed.

(** Every column called [timestamp] has a type that [F.year] takes. *)
Definition castable_timestamp (s : list (string * DataType)) : Prop :=
  ∀ t, ("timestamp", t) ∈ s → date_castable t = true.

Lemma castable_set_field c t s :
  (c = "timestamp" → date_castable t = true) →
  castable_timestamp s → castable_timestamp (set_field c t s).
Proof.
  intros Hct Hs t' [[= <- ->]|Hin]%set_field_elem; [by apply Hct|by apply Hs].
Qed.

Lemma castable_dedupe df :
  castable_timestamp (schema df) → castable_timestamp (schema (dedupe df)).
Proof.
  intros Hs. unfold dedupe. destruct (dedup_applies df); [|done]. simpl.
  intros t [_ Hin]%list_elem_of_filter.
  by apply (castable_set_field "row_num" IntegerType (schema df)).
Qed.

Lemma castable_trim_columns cols cleaned out :
  trim_columns cols cleaned = inr out →
  castable_timestamp (schema cleaned) → castable_timestamp (schema out).
Proof.
  revert cleaned. induction cols as [|c cols IH]; intros cleaned; simpl.
  - by intros [= ->].
  - unfold trim_column.
    destruct (plain_ref c && bool_decide (c ∈ columns cleaned)); [|done].
    intros Hout Hs. apply (IH _ Hout). simpl. by apply castable_set_field.
Qed.

Lemma castable_clean_data df w w' out :
  clean_data df w = (w', inr out) →
  castable_timestamp (schema df) → castable_timestamp (schema out).
Proof.
  unfold clean_data, print, bind, ret, raise.
  destruct (trim_columns (string_cols df) (dedupe df)) as [e|mid] eqn:Hmid;
    [done|].
  intros [= _ <-] Hs. unfold drop_null_ids.
  assert (castable_timestamp (schema mid)) as Hmid'
    by (eapply castable_trim_columns; [done|by apply castable_dedupe]).
  by case_bool_decide.
Qed.

(** *** The audit and partition stages *)

Definition audited (df : DataFrame) : DataFrame :=
  withColumn "_job_run_id" StringType (λ _, Some (VString job_run_id))
    (withColumn "_source_file" StringType
       (λ r, Some (VString (input_file_name r)))
       (withColumn "_processed_at" TimestampType
          (λ _, Some (VTimestamp current_timestamp)) df)).

Lemma add_audit_columns_run df w :
  add_audit_columns df w = (printed "Adding audit columns..." w, inr (audited df)).
Proof. done. Qed.


Lemma castable_audited df :
  castable_timestamp (schema df) → castable_timestamp (schema (audited df)).
Proof.
  intros Hs. unfold audited. simpl.
  repeat (apply castable_set_field; [done|]). done.
Qed.

(** The three partition cells of a row, from its timestamp cell. *)
Definition derived (f : date → Z) (r : Row) : option Value :=
  (λ d, VInt (f d)) <$> (r !! "timestamp" ≫= cast_date).

Lemma date_field_derived f (r : Row) : date_field f "timestamp" r = derived f r.
Proof.
  unfold date_field, derived. by destruct (r !! "timestamp" ≫= cast_date).
Qed.

Definition with_triple (y m d : option Value) (r : Row) : Row :=
  set_cell "day" d (set_cell "month" m (set_cell "year" y r)).

Lemma with_triple_lookup y m d (r : Row) :
  with_triple y m d r !! "year" = y ∧
  with_triple y m d r !! "month" = m ∧
  with_triple y m d r !! "day" = d ∧
  ∀ c, c ≠ "year" → c ≠ "month" → c ≠ "day" → with_triple y m d r !! c = r !! c.
Proof.
  unfold with_triple. repeat split; rewrite ?lookup_set_cell; simpl; try done.
  intros c ???. rewrite !lookup_set_cell.
  by rewrite !decide_False by done.
Qed.

Lemma add_partitions_processing_date df w :
  "timestamp" ∉ columns df →
  ∃ out,
    add_partitions df w = (printed "Adding partition columns..." w, inr out) ∧
    rows out =
      with_triple (Some (VInt (Z.of_nat (year now))))
        (Some (VInt (Z.of_nat (month now))))
        (Some (VInt (Z.of_nat (day now)))) <$> rows df.
Proof.
  intros Hts. unfold add_partitions, print, bind, ret.
  rewrite (bool_decide_eq_false_2 _ Hts). eexists. split; [done|].
  simpl. by rewrite <- !list_fmap_compose.
Qed.

Lemma add_partitions_event_date df w t :
  lookup_field "timestamp" (schema df) = Some t →
  date_castable t = true →
  ∃ out,
    add_partitions df w = (printed "Adding partition columns..." w, inr out) ∧
    rows out =
      (λ r, with_triple (derived d_year r) (derived d_month r)
              (derived d_day r) r) <$> rows df.
Proof.
  intros Ht Hc. unfold add_partitions, print, bind, ret.
  rewrite bool_decide_eq_true_2.
  2:{ apply lookup_field_elem in Ht. unfold columns.
      apply list_elem_of_fmap. by exists ("timestamp", t). }
  rewrite Ht, Hc. eexists. split; [done|].
  simpl. rewrite <- !list_fmap_compose. apply list_fmap_ext.
  intros i r _. simpl. unfold with_triple.
  rewrite !date_field_derived. unfold derived.
  by rewrite !lookup_set_cell.
Qed.

Lemma add_partitions_mismatch df w t :
  lookup_field "timestamp" (schema df) = Some t →
  date_castable t = false →
  ∃ e, add_partitions df w = (printed "Adding partition columns..." w, inl e).
Proof.
  intros Ht Hc. unfold add_partitions, print, bind, raise.
  rewrite bool_decide_eq_true_2.
  2:{ apply lookup_field_elem in Ht. unfold columns.
      apply list_elem_of_fmap. by exists ("timestamp", t). }
  rewrite Ht, Hc. eauto.
Qed.

Lemma add_partitions_ok df w :
  castable_timestamp (schema df) →
  ∃ out,
    add_partitions df w = (printed "Adding partition columns..." w, inr out) ∧
    count out = count df.
Proof.
  intros Hs. destruct (decide ("timestamp" ∈ columns df)) as [Hin|Hin].
  - destruct (lookup_field_is_Some _ _ Hin) as [t Ht].
    destruct (add_partitions_event_date df w t Ht) as (out & Hrun & Hrows).
    { by apply Hs, lookup_field_elem. }
    exists out. split; [done|]. unfold count. by rewrite Hrows, length_fmap.
  - destruct (add_partitions_processing_date df w Hin) as (out & Hrun & Hrows).
    exists out. split; [done|]. unfold count. by rewrite Hrows, length_fmap.
Qed.

(** *** The job as a whole *)

Definition the_sink (out : DataFrame) : sink :=
  {| snk_path := output_path;
     snk_partitionKeys := ["year"; "month"; "day"];
     snk_format := "glueparquet";
     snk_compression := "snappy";
     snk_frame := out |}.


(** What a run that goes through prints, given the two counts. *)
Definition transcript (read kept : nat) : list string :=
  [ rule; "Starting Raw to Processed ETL";
    "Source: " +:+ SOURCE_DATABASE +:+ "." +:+ SOURCE_TABLE;
    "Target: s3://" +:+ TARGET_BUCKET +:+ "/" +:+ TARGET_PREFIX;
    rule;
    "Reading from " +:+ SOURCE_DATABASE +:+ "." +:+ SOURCE_TABLE;
    "Read " +:+ str_int read +:+ " raw records";
    "Applying data cleaning...";
    "Adding audit columns...";
    "Adding partition columns...";
    "Writing to " +:+ output_path;
    "Updating Data Catalog...";
    "Processed " +:+ str_int kept +:+ " records";
    rule; "ETL Complete!"; rule ].

(** *** Properties of the job *)

(** C9. Without the key column or without the recency column the first
    block of [clean_data] does nothing: the frame that goes on is the input
    frame, rows and schema, in the same order. *)
Theorem dedupe_passes_through df :
  "id" ∉ columns df ∨ "timestamp" ∉ columns df →
  dedupe df = df ∧ rows (dedupe df) = rows df.
Proof.
  intros [Hid|Hts].
  - by rewrite dedupe_no_key.
  - by rewrite dedupe_no_recency.
Qed.


(** C2, as the code has it. The choice is made once, on the schema. When the
    frame has no [timestamp] column, every row gets the processing date as
    its triple. When it has one, of a type that casts to a date, every row
    gets the three fields of the date its own timestamp cell casts to, and
    gets three null cells when that cell is null or does not cast. *)
Theorem partition_triple_by_schema df w :
  ("timestamp" ∉ columns df →
   ∃ out,
     add_partitions df w = (printed "Adding partition columns..." w, inr out) ∧
     Forall2 (λ r r' : Row,
                r' !! "year" = Some (VInt (Z.of_nat (year now))) ∧
                r' !! "month" = Some (VInt (Z.of_nat (month now))) ∧
                r' !! "day" = Some (VInt (Z.of_nat (day now))))
       (rows df) (rows out)) ∧
  (∀ t, lookup_field "timestamp" (schema df) = Some t →
        date_castable t = true →
   ∃ out,
     add_partitions df w = (printed "Adding partition columns..." w, inr out) ∧
     Forall2 (λ r r' : Row,
                match r !! "timestamp" ≫= cast_date with
                | Some d =>
                    r' !! "year" = Some (VInt (d_year d)) ∧
                    r' !! "month" = Some (VInt (d_month d)) ∧
                    r' !! "day" = Some (VInt (d_day d))
                | None =>
                    r' !! "year" = None ∧ r' !! "month" = None ∧
                    r' !! "day" = None
                end)
       (rows df) (rows out)).
Proof.
  split.
  - intros Hts.
    destruct (add_partitions_processing_date df w Hts) as (out & Hrun & Hrows).
    exists out. split; [done|]. rewrite Hrows.
    apply Forall2_fmap_r, Forall_Forall2_diag, Forall_forall. intros r _.
    by destruct (with_triple_lookup (Some (VInt (Z.of_nat (year now))))
                   (Some (VInt (Z.of_nat (month now))))
                   (Some (VInt (Z.of_nat (day now)))) r) as (? & ? & ? & _).
  - intros t Ht Hc.
    destruct (add_partitions_event_date df w t Ht Hc) as (out & Hrun & Hrows).
    exists out. split; [done|]. rewrite Hrows.
    apply Forall2_fmap_r, Forall_Forall2_diag, Forall_forall. intros r _.
    destruct (with_triple_lookup (derived d_year r) (derived d_month r)
                (derived d_day r) r) as (Hy & Hm & Hd & _).
    unfold compose. cbv beta. rewrite Hy, Hm, Hd. unfold derived.
    by destruct (r !! "timestamp" ≫= cast_date).
Qed.


(** *** Further properties of the functions of [raw_to_processed.py] *)

Lemma length_remove_dups {A} `{EqDecision A} (l : list A) :
  (length (remove_dups l) ≤ length l)%nat.
Proof.
  induction l as [|x l IH]; [done|]. simpl. case_decide; simpl; lia.
Qed.

Lemma length_omap {A B} (f : A → option B) (l : list A) :
  (length (omap f l) ≤ length l)%nat.
Proof.
  induction l as [|x l IH]; [done|]. csimpl. destruct (f x); simpl; lia.
Qed.

Lemma filter_fmap_ids (l : list Row) :
  (λ r : Row, r !! "id") <$> filter (λ r : Row, is_Some (r !! "id")) l
  = filter is_Some ((λ r : Row, r !! "id") <$> l).
Proof.
  induction l as [|r l IH]; [done|].
  csimpl. rewrite !filter_cons.
  destruct (decide (is_Some (r !! "id"))); csimpl; by rewrite IH.
Qed.

(** The cleaning never adds a row: on a frame that it takes ([clean_ok])
    it returns, and the frame it returns is no longer than the frame it was
    given. *)
Theorem clean_data_never_adds_rows df w :
  clean_ok df →
  ∃ out,
    clean_data df w = (printed "Applying data cleaning..." w, inr out) ∧
    (count out ≤ count df)%nat.
Proof using exchange_perm.
  intros Hok. destruct (clean_data_ok df w Hok) as (out & Hrun & Hrows & _).
  exists out. split; [done|]. unfold count.
  rewrite Hrows, cleaned_rows_length. unfold surviving.
  repeat case_bool_decide; [|apply length_filter|done].
  etrans; [apply length_remove_dups|apply length_omap].
Qed.

(** After the cleaning of a frame that it takes ([clean_ok]) and that has
    an [id] column, no row has a null [id]. *)
Theorem cleaned_ids_are_not_null df w :
  clean_ok df → "id" ∈ columns df →
  ∃ out,
    clean_data df w = (printed "Applying data cleaning..." w, inr out) ∧
    ∀ r, r ∈ rows out → is_Some (r !! "id").
Proof.
  intros Hok Hid. destruct (clean_data_ok df w Hok) as (out & Hrun & Hrows & _).
  exists out. split; [done|]. intros r. rewrite Hrows. unfold cleaned_rows.
  rewrite bool_decide_eq_true_2 by done.
  by intros [? _]%list_elem_of_filter.
Qed.

(** On a frame that the cleaning takes ([clean_ok]), when the window runs
    and the loop does not trim the [id] column (it is not a string column,
    or the PySpark is 3.3 or later and the loop trims nothing), the cleaning
    leaves one row per key: the trimming, which runs after the window,
    cannot make two keys equal. *)
Theorem non_string_ids_stay_unique df w :
  clean_ok df → dedup_applies df = true →
  pyspark_3_3 = true ∨ ("id", StringType) ∉ schema df →
  ∃ out,
    clean_data df w = (printed "Applying data cleaning..." w, inr out) ∧
    NoDup ((λ r : Row, r !! "id") <$> rows out).
Proof using exchange_perm.
  intros Hok Happ Hty.
  destruct (clean_data_ok df w Hok) as (out & Hrun & Hrows & _).
  exists out. split; [done|]. rewrite Hrows. unfold cleaned_rows, trimmed_rows.
  assert ("id" ∈ columns df) as Hid.
  { unfold dedup_applies in Happ. apply andb_true_iff in Happ as [Hid _].
    by apply bool_decide_eq_true in Hid. }
  rewrite bool_decide_eq_true_2 by done.
  rewrite filter_fmap_ids. apply NoDup_filter.
  rewrite <- list_fmap_compose.
  rewrite (list_fmap_ext _ (λ r : Row, r !! "id") (rows (dedupe df))).
  - rewrite dedupe_keys by done. apply NoDup_remove_dups.
  - intros i r _. simpl. rewrite lookup_trim_row.
    rewrite decide_False; [done|]. rewrite string_cols_spec.
    intros [Hv Hin]. destruct Hty as [Hty|Hty]; [congruence|done].
Qed.

Lemma set_field_names c t s c' :
  c' ∈ (set_field c t s).*1 ↔ c' = c ∨ c' ∈ s.*1.
Proof.
  induction s as [|[c0 t0] s IH]; simpl.
  - rewrite list_elem_of_singleton. sets.
  - case_decide; subst; csimpl; rewrite ?elem_of_cons, ?IH; naive_solver.
Qed.

(** On a frame with plain column names, the audit stage adds its three cells
    to every row, in order, and leaves every other cell as it was; the
    columns are those of the input and the three audit columns; the run
    identifier is the job argument [JOB_RUN_ID], or ["local"] without it. *)
Theorem add_audit_columns_annotates df w :
  plain_columns df = true →
  ∃ out,
    add_audit_columns df w = (printed "Adding audit columns..." w, inr out) ∧
    (∀ c, c ∈ columns out ↔
          c ∈ columns df ∨
          c ∈ ["_processed_at"; "_source_file"; "_job_run_id"]) ∧
    Forall2 (λ r r' : Row,
               r' !! "_processed_at" = Some (VTimestamp current_timestamp) ∧
               (∃ f, r' !! "_source_file" = Some (VString f)) ∧
               r' !! "_job_run_id"
                 = Some (VString (default "local" (args !! "JOB_RUN_ID"))) ∧
               ∀ c, c ≠ "_processed_at" → c ≠ "_source_file" →
                    c ≠ "_job_run_id" → r' !! c = r !! c)
      (rows df) (rows out).
Proof.
  intros _. exists (audited df). split; [done|]. split.
  { intros c. unfold audited, columns. simpl. rewrite !set_field_names.
    rewrite !elem_of_cons, elem_of_nil. naive_solver. }
  unfold audited. simpl.
  rewrite <- !list_fmap_compose.
  apply Forall2_fmap_r, Forall_Forall2_diag, Forall_forall. intros r _.
  unfold compose. simpl. rewrite !lookup_insert_ne, !lookup_insert_eq by done.
  split; [done|]. split.
  { eexists. by rewrite lookup_insert_ne, lookup_insert_eq. }
  split; [done|].
  intros c ???. by rewrite !lookup_insert_ne.
Qed.

(** On a frame with plain column names, the partition stage never drops or
    reorders a row and touches no cell but the three partition cells, which
    it sets whatever the row brought under these names. *)
Theorem add_partitions_keeps_the_rest df w :
  plain_columns df = true →
  castable_timestamp (schema df) →
  ∃ out,
    add_partitions df w = (printed "Adding partition columns..." w, inr out) ∧
    Forall2 (λ r r' : Row,
               ∀ c, c ≠ "year" → c ≠ "month" → c ≠ "day" → r' !! c = r !! c)
      (rows df) (rows out).
Proof.
  intros _ Hs. destruct (decide ("timestamp" ∈ columns df)) as [Hin|Hin].
  - destruct (lookup_field_is_Some _ _ Hin) as [t Ht].
    destruct (add_partitions_event_date df w t Ht) as (out & Hrun & Hrows).
    { by apply Hs, lookup_field_elem. }
    exists out. split; [done|]. rewrite Hrows.
    apply Forall2_fmap_r, Forall_Forall2_diag, Forall_forall. intros r _.
    intros c ???. by apply with_triple_lookup.
  - destruct (add_partitions_processing_date df w Hin) as (out & Hrun & Hrows).
    exists out. split; [done|]. rewrite Hrows.
    apply Forall2_fmap_r, Forall_Forall2_diag, Forall_forall. intros r _.
    intros c ???. by apply with_triple_lookup.
Qed.

(** *** The job, stage by stage *)

Definition started (w : world) : world :=
  {| stdout := stdout w ++
       [rule; "Starting Raw to Processed ETL";
        "Source: " +:+ SOURCE_DATABASE +:+ "." +:+ SOURCE_TABLE;
        "Target: s3://" +:+ TARGET_BUCKET +:+ "/" +:+ TARGET_PREFIX;
        rule;
        "Reading from " +:+ SOURCE_DATABASE +:+ "." +:+ SOURCE_TABLE;
        "Read " +:+ str_int (count catalog) +:+ " raw records"];
     written := written w |}.

Lemma main_unfold w :
  main w =
    match clean_data catalog (started w) with
    | (w2, inl e) => (w2, inl e)
    | (w2, inr cleaned) =>
        match add_partitions (audited cleaned)
                (printed "Adding audit columns..." w2) with
        | (w3, inl e) => (w3, inl e)
        | (w3, inr out) =>
            match write_processed_data out w3 with
            | (w4, inl e) => (w4, inl e)
            | (w4, inr n) =>
                (printed rule (printed "ETL Complete!" (printed rule
                   (printed ("Processed " +:+ str_int n +:+ " records")
                      (printed "Updating Data Catalog..." w4)))), inr ())
            end
        end
    end.
Proof.
  unfold main, read_raw_data, update_catalog.
  unfold bind at 1. unfold print at 1. unfold bind at 1. unfold print at 1.
  unfold bind at 1. unfold print at 1. unfold bind at 1. unfold print at 1.
  unfold bind at 1. unfold print at 1. unfold bind at 1. unfold bind at 1.
  unfold print at 1. unfold ret at 1.
  unfold bind at 1. unfold print at 1. simpl.
  rewrite <- !app_assoc. simpl. fold (started w).
  unfold bind at 1.
  destruct (clean_data catalog (started w)) as [w2 [e|cleaned]]; [done|].
  unfold bind at 1. rewrite add_audit_columns_run.
  unfold bind at 1.
  destruct (add_partitions (audited cleaned) _) as [w3 [e|out]]; [done|].
  unfold bind at 1.
  destruct (write_processed_data out w3) as [w4 [e|n]]; [done|].
  reflexivity.
Qed.

Lemma clean_data_written df w : written (clean_data df w).1 = written w.
Proof.
  unfold clean_data, print, bind, ret, raise.
  by destruct (trim_columns (string_cols df) (dedupe df)).
Qed.

Lemma add_partitions_written df w : written (add_partitions df w).1 = written w.
Proof.
  unfold add_partitions, print, bind, ret, raise.
  case_bool_decide; [|done].
  destruct (lookup_field "timestamp" (schema df)) as [t|]; [|done].
  by destruct (date_castable t).
Qed.

(** All or nothing: a run that fails, at whatever stage, has handed nothing
    to the writer, and a run that completes has handed it one dataset, to be
    partitioned by year, month and day and written as snappy-compressed
    glueparquet under the target path. *)
Theorem main_writes_once_or_not_at_all w :
  match main w with
  | (w', inl _) => written w' = written w
  | (w', inr _) =>
      ∃ out, written w' = written w ++
               [{| snk_path := "s3://" +:+ TARGET_BUCKET +:+ "/" +:+ TARGET_PREFIX;
                   snk_partitionKeys := ["year"; "month"; "day"];
                   snk_format := "glueparquet";
                   snk_compression := "snappy";
                   snk_frame := out |}]
  end.
Proof.
  rewrite main_unfold.
  pose proof (clean_data_written catalog (started w)) as H1.
  destruct (clean_data catalog (started w)) as [w2 [e|cleaned]]; [done|].
  pose proof (add_partitions_written (audited cleaned)
                (printed "Adding audit columns..." w2)) as H2.
  destruct (add_partitions (audited cleaned) _) as [w3 [e|out]];
    simpl in *; [congruence|].
  unfold write_processed_data, print, bind, ret. simpl.
  destruct (glue_write _) as [e|]; simpl; [congruence|].
  exists out. by rewrite H2, H1.
Qed.

(** A refused write fails the job after the cleaning.  On a catalog table
    that the cleaning takes ([clean_ok]) and whose [timestamp] column, if
    any, casts to a date, the run reaches the writer: the error of the
    writer is the error of the run, nothing is recorded as written, and the
    run stops before the catalog update, so that no processed count is
    printed. *)
Theorem refused_write_fails_the_job w e :
  clean_ok catalog →
  castable_timestamp (schema catalog) →
  (∀ out, glue_write (the_sink out) = Some e) →
  ∃ w',
    main w = (w', inl e) ∧
    written w' = written w ∧
    stdout w' = stdout (started w) ++
      ["Applying data cleaning..."; "Adding audit columns...";
       "Adding partition columns..."; "Writing to " +:+ output_path].
Proof.
  intros Hok Hcast Hwrite. rewrite main_unfold.
  destruct (clean_data_ok catalog (started w) Hok) as (cleaned & Hclean & _).
  assert (castable_timestamp (schema cleaned)) as Hcast1
    by (by eapply castable_clean_data).
  destruct (add_partitions_ok (audited cleaned)
              (printed "Adding audit columns..."
                 (printed "Applying data cleaning..." (started w))))
    as (out & Hpart & _); [by apply castable_audited|].
  rewrite Hclean, Hpart.
  unfold write_processed_data, print, bind, ret. simpl.
  fold (the_sink out). rewrite Hwrite. simpl.
  eexists. split; [done|]. split; [done|]. simpl.
  by rewrite <- !app_assoc.
Qed.

(** A string column called [row_num] and the window.  The window's rank
    column takes the place of the input's [row_num] and is dropped.  Up to
    PySpark 3.2 the trimming loop then asks for a column that is gone: the
    job fails at analysis and nothing is written.  From PySpark 3.3 on the
    loop trims no column: on a frame with plain column names the cleaning
    goes through, and returns the frame without the column [row_num] that
    the input had. *)
Theorem string_row_num_fails_the_job w :
  dedup_applies catalog = true → ("row_num", StringType) ∈ schema catalog →
  (pyspark_3_3 = false →
   ∃ w' msg,
     main w = (w', inl (AnalysisException msg)) ∧ written w' = written w) ∧
  (pyspark_3_3 = true → plain_columns catalog = true →
   ∃ out,
     clean_data catalog w = (printed "Applying data cleaning..." w, inr out) ∧
     "row_num" ∈ columns catalog ∧ "row_num" ∉ columns out).
Proof.
  intros Happ Hin. split.
  - intros Hv. rewrite main_unfold.
    assert ("row_num" ∉ columns (dedupe catalog)) as Hno.
    { rewrite dedupe_columns, Happ. by intros [? _]%list_elem_of_filter. }
    destruct (trim_columns_missing (string_cols catalog) "row_num"
                (dedupe catalog)) as [e He];
      [by apply string_cols_spec|done|].
    destruct (trim_columns_error _ _ _ He) as [msg ->].
    unfold clean_data, print, bind, raise. rewrite He.
    by exists (printed "Applying data cleaning..." (started w)), msg.
  - intros Hv Hplain.
    destruct (clean_data_ok catalog w) as (out & Hrun & _ & Hcols).
    { split; [done|]. intros _. rewrite string_cols_parens by done.
      apply not_elem_of_nil. }
    exists out. split; [done|]. split.
    + unfold columns. apply list_elem_of_fmap. by exists ("row_num", StringType).
    + rewrite Hcols, dedupe_columns, Happ. by intros [? _]%list_elem_of_filter.
Qed.

(** A [timestamp] column of a type that does not cast to a date (integer,
    long, boolean) fails the partition stage at analysis, before any row is
    looked at. *)
Theorem add_partitions_rejects_other_types df w t :
  lookup_field "timestamp" (schema df) = Some t →
  t = IntegerType ∨ t = LongType ∨ t = BooleanType →
  ∃ msg,
    add_partitions df w =
      (printed "Adding partition columns..." w, inl (AnalysisException msg)).
Proof.
  intros Ht Hty. unfold add_partitions, print, bind, raise.
  rewrite bool_decide_eq_true_2.
  2:{ apply lookup_field_elem in Ht. unfold columns.
      apply list_elem_of_fmap. by exists ("timestamp", t). }
  rewrite Ht. destruct Hty as [-> | [-> | ->]]; by eexists.
Qed.

End Job.

(** *** The window under two exchanges *)





(** *** Sample frames *)

Definition event_schema : list (string * DataType) :=
  [("id", LongType); ("timestamp", StringType); ("name", StringType)].

Definition event (i : option Z) (t : option string) (n : string) : Row :=
  set_cell "id" (VLong <$> i)
    (set_cell "timestamp" (VString <$> t) {["name" := VString n]}).

Definition keep_order (l : list Row) : list Row := l.

Lemma keep_order_perm l : keep_order l ≡ₚ l.
Proof. done. Qed.




(** Two rows of one key, the second one later. *)
Definition two_versions : DataFrame :=
  {| schema := event_schema;
     rows := [event (Some 1%Z) (Some "2024-01-01") "  abc  ";
              event (Some 1%Z) (Some "2024-01-02") " later ";
              event None (Some "2024-01-03") "no id"] |}.

(** Ten rows: two share the key 3, one has no key. *)
Definition ten_rows : DataFrame :=
  {| schema := event_schema;
     rows := [event (Some 1%Z) (Some "2024-01-01") "a";
              event (Some 2%Z) (Some "2024-01-01") "b";
              event (Some 3%Z) (Some "2024-01-01") "c";
              event (Some 3%Z) (Some "2024-01-02") "c2";
              event (Some 4%Z) (Some "2024-01-01") "d";
              event (Some 5%Z) (Some "2024-01-01") "e";
              event (Some 6%Z) (Some "2024-01-01") "f";
              event (Some 7%Z) (Some "2024-01-01") "g";
              event (Some 8%Z) (Some "2024-01-01") "h";
              event None (Some "2024-01-01") "i"] |}.

(** A frame with a string column and no key column; the value starts with a
    tab. *)
Definition tab : Ascii.ascii := Ascii.ascii_of_nat 9.

Definition tab_frame : DataFrame :=
  {| schema := [("name", StringType)];
     rows := [{["name" := VString (String tab "abc")]}] |}.


(** A frame whose timestamp column holds a null. *)
Definition null_timestamp_frame : DataFrame :=
  {| schema := [("id", LongType); ("timestamp", TimestampType)];
     rows := [{["id" := VLong 1]}] |}.

(** A cast that makes every cell the same date. *)
Definition always_a_date (_ : Value) : option date :=
  Some {| d_year := 2024; d_month := 3; d_day := 15 |}.

Definition processing_time : datetime :=
  {| year := 2024; month := 6; day := 30;
     hour := 12; minute := 0; second := 0; microsecond := 0 |}.

Definition nothing_yet : world := {| stdout := []; written := [] |}.

Definition glue_accepts (_ : sink) : option exn := None.

Definition no_file (_ : Row) : string := "".

Definition job_args : gmap string string :=
  <["source_database" := "raw_db"]>
    (<["source_table" := "events"]>
       (<["target_bucket" := "data-lake-processed"]>
          {["target_prefix" := "events"]})).

(** *** The claims on the sample frames *)

Ltac in_list H :=
  repeat (apply elem_of_cons in H as [H|H]); [..|by apply not_elem_of_nil in H].





Lemma null_timestamp_gets_no_triple :
  lookup_field "timestamp" (schema null_timestamp_frame) = Some TimestampType ∧
  match (add_partitions always_a_date processing_time null_timestamp_frame
           nothing_yet).2 with
  | inr out =>
      (λ r : Row, (r !! "id", r !! "timestamp", r !! "year", r !! "month",
                   r !! "day")) <$> rows out
  | inl _ => []
  end = [(Some (VLong 1), None, None, None, None)].
Proof. split; vm_compute; reflexivity. Qed.


Lemma event_schema_clean_ok v rs :
  clean_ok v {| schema := event_schema; rows := rs |}.
Proof.
  split; [reflexivity|].
  intros _ [_ Hin]%string_cols_spec. simpl in Hin. unfold event_schema in Hin.
  in_list Hin; discriminate Hin.
Qed.

Lemma event_schema_castable : castable_timestamp event_schema.
Proof.
  intros t Hin. unfold event_schema in Hin.
  in_list Hin; simplify_eq; reflexivity.
Qed.




Lemma dedupe_passes_through_witness :
  dedupe keep_order tab_frame = tab_frame ∧
  rows (dedupe keep_order tab_frame) = rows tab_frame.
Proof.
  apply (dedupe_passes_through keep_order tab_frame). left.
  unfold columns, tab_frame. simpl. intros Hin. in_list Hin. discriminate Hin.
Defined.



Lemma ten_rows_transcript :
  transcript job_args 10 8 =
    [ "============================================================";
      "Starting Raw to Processed ETL";
      "Source: raw_db.events";
      "Target: s3://data-lake-processed/events";
      "============================================================";
      "Reading from raw_db.events";
      "Read 10 raw records";
      "Applying data cleaning...";
      "Adding audit columns...";
      "Adding partition columns...";
      "Writing to s3://data-lake-processed/events";
      "Updating Data Catalog...";
      "Processed 8 records";
      "============================================================";
      "ETL Complete!";
      "============================================================" ].
Proof. vm_compute. reflexivity. Qed.

(** *** The further properties on the sample frames *)

Definition ranked_frame : DataFrame :=
  {| schema := event_schema ++ [("row_num", StringType)];
     rows := [<["row_num" := VString "7"]>
                (event (Some 1%Z) (Some "2024-01-01") "a")] |}.

Definition epoch_frame : DataFrame :=
  {| schema := [("id", LongType); ("timestamp", LongType)];
     rows := [<["timestamp" := VLong 1710496800]> {["id" := VLong 1]}] |}.

Definition glue_refuses (_ : sink) : option exn :=
  Some (WriteError "AccessDenied").

Lemma event_schema_has_id rs :
  "id" ∈ columns {| schema := event_schema; rows := rs |}.
Proof. unfold columns. simpl. apply elem_of_cons. by left. Qed.

Lemma event_schema_id_not_string : ("id", StringType) ∉ event_schema.
Proof. unfold event_schema. intros Hin. in_list Hin; discriminate Hin. Qed.

Lemma clean_data_never_adds_rows_witness :
  ∃ out,
    clean_data false keep_order ten_rows nothing_yet =
      (printed "Applying data cleaning..." nothing_yet, inr out) ∧
    (count out ≤ count ten_rows)%nat.
Proof.
  apply (clean_data_never_adds_rows false keep_order keep_order_perm ten_rows
           nothing_yet (event_schema_clean_ok _ _)).
Defined.

Lemma cleaned_ids_are_not_null_witness :
  ∃ out,
    clean_data false keep_order ten_rows nothing_yet =
      (printed "Applying data cleaning..." nothing_yet, inr out) ∧
    ∀ r, r ∈ rows out → is_Some (r !! "id").
Proof.
  apply (cleaned_ids_are_not_null false keep_order ten_rows nothing_yet
           (event_schema_clean_ok _ _) (event_schema_has_id _)).
Defined.

Lemma non_string_ids_stay_unique_witness :
  ∃ out,
    clean_data false keep_order ten_rows nothing_yet =
      (printed "Applying data cleaning..." nothing_yet, inr out) ∧
    NoDup ((λ r : Row, r !! "id") <$> rows out).
Proof.
  apply (non_string_ids_stay_unique false keep_order keep_order_perm ten_rows
           nothing_yet (event_schema_clean_ok _ _) eq_refl).
  right. exact event_schema_id_not_string.
Defined.

Lemma add_audit_columns_annotates_witness :
  ∃ out,
    add_audit_columns 0 no_file job_args two_versions nothing_yet =
      (printed "Adding audit columns..." nothing_yet, inr out) ∧
    (∀ c, c ∈ columns out ↔
          c ∈ columns two_versions ∨
          c ∈ ["_processed_at"; "_source_file"; "_job_run_id"]) ∧
    Forall2 (λ r r' : Row,
               r' !! "_processed_at" = Some (VTimestamp 0) ∧
               (∃ f, r' !! "_source_file" = Some (VString f)) ∧
               r' !! "_job_run_id"
                 = Some (VString (default "local" (job_args !! "JOB_RUN_ID"))) ∧
               ∀ c, c ≠ "_processed_at" → c ≠ "_source_file" →
                    c ≠ "_job_run_id" → r' !! c = r !! c)
      (rows two_versions) (rows out).
Proof.
  apply (add_audit_columns_annotates 0 no_file job_args two_versions
           nothing_yet eq_refl).
Defined.

Lemma add_partitions_keeps_the_rest_witness :
  ∃ out,
    add_partitions always_a_date processing_time two_versions nothing_yet =
      (printed "Adding partition columns..." nothing_yet, inr out) ∧
    Forall2 (λ r r' : Row,
               ∀ c, c ≠ "year" → c ≠ "month" → c ≠ "day" → r' !! c = r !! c)
      (rows two_versions) (rows out).
Proof.
  apply (add_partitions_keeps_the_rest always_a_date processing_time
           two_versions nothing_yet eq_refl event_schema_castable).
Defined.

Lemma refused_write_fails_the_job_witness :
  ∃ w',
    main false keep_order always_a_date 0 no_file job_args processing_time
      ten_rows glue_refuses nothing_yet = (w', inl (WriteError "AccessDenied")) ∧
    written w' = written nothing_yet ∧
    stdout w' = stdout (started job_args ten_rows nothing_yet) ++
      ["Applying data cleaning..."; "Adding audit columns...";
       "Adding partition columns..."; "Writing to " +:+ output_path job_args].
Proof.
  apply (refused_write_fails_the_job false keep_order always_a_date 0 no_file
           job_args processing_time ten_rows glue_refuses nothing_yet
           (WriteError "AccessDenied") (event_schema_clean_ok _ _)
           event_schema_castable (λ _, eq_refl)).
Defined.

Lemma ranked_frame_row_num : ("row_num", StringType) ∈ schema ranked_frame.
Proof.
  unfold ranked_frame, event_schema. simpl.
  do 3 (apply elem_of_cons; right). apply elem_of_cons. by left.
Qed.

Lemma string_row_num_fails_the_job_witness :
  (∃ w' msg,
     main false keep_order always_a_date 0 no_file job_args processing_time
       ranked_frame glue_accepts nothing_yet
       = (w', inl (AnalysisException msg)) ∧
     written w' = written nothing_yet) ∧
  (∃ out,
     clean_data true keep_order ranked_frame nothing_yet =
       (printed "Applying data cleaning..." nothing_yet, inr out) ∧
     "row_num" ∈ columns ranked_frame ∧ "row_num" ∉ columns out).
Proof.
  split.
  - apply (string_row_num_fails_the_job false keep_order always_a_date 0
             no_file job_args processing_time ranked_frame glue_accepts
             nothing_yet eq_refl ranked_frame_row_num).
    reflexivity.
  - apply (string_row_num_fails_the_job true keep_order always_a_date 0
             no_file job_args processing_time ranked_frame glue_accepts
             nothing_yet eq_refl ranked_frame_row_num);
      reflexivity.
Defined.

Lemma add_partitions_rejects_other_types_witness :
  ∃ msg,
    add_partitions always_a_date processing_time epoch_frame nothing_yet =
      (printed "Adding partition columns..." nothing_yet,
       inl (AnalysisException msg)).
Proof.
  apply (add_partitions_rejects_other_types always_a_date processing_time
           epoch_frame nothing_yet LongType eq_refl).
  right. by left.
Defined.

End RawToProcessed.
